(** * secwebcam: motion detection and recording state machine

    A shallow embedding of [secwebcam.py]: the frame differencer
    [framediff], the flush routine [savetofile], the SIGINT handler and the
    body of the main loop, followed by the properties of the design
    document that concern them.

    Python integers are unbounded and are modelled by [Z]; Python lists by
    [list]; the module-level globals of the script are the fields of the
    record [State]; the tunable constants at the top of the script are the
    fields of [Config].  An uncaught exception or a call to [exit] ends the
    process, which is the [Raise] and [Exit] results of [outcome]. *)

From Stdlib Require Import String.
From Stdlib.Strings Require Import Byte.
From Stdlib Require Import ZArith QArith Qround List Bool Lia.
Import ListNotations.
Open Scope Z_scope.

Set Implicit Arguments.

(** ** Results of fallible code *)

(** Exceptions are identified by the name of their Python class. *)
Definition exn := string.

Definition cv2_error : exn := "cv2.error"%string.
Definition IndexError : exn := "IndexError"%string.
Definition ValueError : exn := "ValueError"%string.
Definition OverflowError : exn := "OverflowError"%string.

(** The lines the loop and [savetofile] print (and, when logging is enabled,
    also append to the log file); their timestamps are left out. *)
Inductive event : Type :=
| StartedRecording
| StoppedRecording
| FramesSaved (n : Z)
| HddSpaceBelow (gb : Z).

(** A computation returns, dies of an uncaught exception, or ends the
    process through [exit]; in the last case the lines printed up to then
    are kept. *)
Inductive outcome (A : Type) : Type :=
| Ok (a : A)
| Raise (e : exn)
| Exit (code : Z) (out : list event).

Arguments Ok {A} a.
Arguments Raise {A} e.
Arguments Exit {A} code out.

Definition bind {A B : Type} (m : outcome A) (k : A -> outcome B) : outcome B :=
  match m with
  | Ok a => k a
  | Raise e => Raise e
  | Exit c out => Exit c out
  end.

Notation "x <- m ;; k" := (bind m (fun x => k))
  (at level 61, m at next level, right associativity).

(** ** Python list operations used by the script *)

(** [l[i]]: a negative index counts from the end, anything out of range
    raises [IndexError]. *)
Definition py_getitem {A : Type} (l : list A) (i : Z) : outcome A :=
  let n := Z.of_nat (length l) in
  let j := if i <? 0 then i + n else i in
  if (0 <=? j) && (j <? n) then
    match nth_error l (Z.to_nat j) with
    | Some x => Ok x
    | None => Raise IndexError
    end
  else Raise IndexError.

(** [l.pop(0)], keeping only the list that remains. *)
Definition py_pop0 {A : Type} (l : list A) : outcome (list A) :=
  match l with
  | [] => Raise IndexError
  | _ :: rest => Ok rest
  end.

(** [len(l)] *)
Definition len {A : Type} (l : list A) : Z := Z.of_nat (length l).

(** ** Frames *)

Definition byte_val (b : byte) : Z := Z.of_N (Byte.to_N b).

(** A captured frame is a numpy array of shape [(height, width, 3)] and
    element type uint8, channels in B, G, R order. *)
Record Pixel : Type := mkPixel { blue : byte; green : byte; red : byte }.

Record Frame : Type := mkFrame {
  height : nat;
  width : nat;
  pixel : nat -> nat -> Pixel
}.

(** A single-channel uint8 image, as [cv2.cvtColor] and [cv2.subtract]
    return it. *)
Record Gray : Type := mkGray {
  gheight : nat;
  gwidth : nat;
  gval : nat -> nat -> Z
}.

(** The float that [np.uint64 / float] produces: a finite value, or the
    infinity and NaN that numpy returns (with a warning) for a zero
    denominator.  Finite quotients are kept exact: the operands that occur
    (a pixel sum and a quarter of a pixel count) are far below 2^53, where
    truncating the correctly rounded binary64 quotient of two such numbers
    gives the same integer as truncating the exact one. *)
Inductive npfloat : Type :=
| Finite (q : Q)
| Inf
| NaN.

Definition true_divide (n : Z) (d : Q) : npfloat :=
  if Qeq_bool d 0 then (if n =? 0 then NaN else Inf)
  else Finite (inject_Z n / d)%Q.

(** [int(x)] on a float truncates towards zero and rejects infinities and
    NaN. *)
Definition Qtrunc (q : Q) : Z :=
  if Qle_bool 0 q then Qfloor q else Qceiling q.

Definition py_int (x : npfloat) : outcome Z :=
  match x with
  | Finite q => Ok (Qtrunc q)
  | Inf => Raise OverflowError
  | NaN => Raise ValueError
  end.

(** [saturate_cast<uchar>]: the result of 8-bit OpenCV arithmetic is clamped
    to 0..255. *)
Definition saturate_u8 (x : Z) : Z := Z.max 0 (Z.min 255 x).

(** Sum of [f i j] over [i < h], [j < w]. *)
Definition sum_upto (n : nat) (f : nat -> Z) : Z :=
  fold_right Z.add 0 (map f (seq 0 n)).

Definition sum2 (h w : nat) (f : nat -> nat -> Z) : Z :=
  sum_upto h (fun i => sum_upto w (fun j => f i j)).

(** [np.sum] of a uint8 array accumulates in an unsigned 64-bit integer. *)
Definition np_sum (g : Gray) : Z :=
  sum2 (gheight g) (gwidth g) (gval g) mod 2 ^ 64.

Section FrameDiffer.

(** The per-pixel weighting of [cv2.COLOR_BGR2GRAY] belongs to OpenCV;
    only its type matters here. *)
Variable bgr2gray : Pixel -> byte.

(** [cv2.cvtColor(frame, cv2.COLOR_BGR2GRAY)].  OpenCV asserts that the
    source is not empty. *)
Definition cvtColor (f : Frame) : outcome Gray :=
  if (height f =? 0)%nat || (width f =? 0)%nat then Raise cv2_error
  else Ok {| gheight := height f;
             gwidth := width f;
             gval := fun i j => byte_val (bgr2gray (pixel f i j)) |}.

(** [cv2.subtract(a, b)]: element-wise saturating [a - b]; arrays of
    different shapes are rejected. *)
Definition subtract (a b : Gray) : outcome Gray :=
  if (gheight a =? gheight b)%nat && (gwidth a =? gwidth b)%nat then
    Ok {| gheight := gheight a;
          gwidth := gwidth a;
          gval := fun i j => saturate_u8 (gval a i j - gval b i j) |}
  else Raise cv2_error.

(** [framediff(frame1, frame2)] *)
Definition framediff (frame1 frame2 : Frame) : outcome Z :=
  g1 <- cvtColor frame1 ;;
  g2 <- cvtColor frame2 ;;
  diff <- subtract g1 g2 ;;
  let h := gheight g1 in
  let w := gwidth g1 in
  let diff := np_sum diff in
  py_int (true_divide diff
            ((inject_Z (Z.of_nat h) / 2) * (inject_Z (Z.of_nat w) / 2))%Q).

End FrameDiffer.

(** ** Configuration and program state *)

(** The constants set at the top of the script, and the two flags that the
    start-up probes of the log file and of the disk decide. *)
Record Config : Type := mkConfig {
  maxframes : Z;
  threshold : Z;
  thresholdframes : Z;
  maxsavedframes : Z;
  minfreespace : Z;
  logging : bool;
  diskcheck : bool
}.

(** A video file written by [savetofile]: the frame size given to the
    writer and the frames passed to it, in order. *)
Record Video : Type := mkVideo {
  video_size : nat * nat;
  video_frames : list Frame
}.

Record State : Type := mkState {
  recording : bool;
  savedframes : list Frame;
  quietlen : Z;
  framebuffer : list Frame;
  cooldown : Z;
  thresholdframecount : Z;
  printed : list event;
  logged : list event;
  videos : list Video
}.

Definition set_recording (v : bool) (s : State) : State :=
  mkState v (savedframes s) (quietlen s) (framebuffer s) (cooldown s)
          (thresholdframecount s) (printed s) (logged s) (videos s).

Definition set_savedframes (v : list Frame) (s : State) : State :=
  mkState (recording s) v (quietlen s) (framebuffer s) (cooldown s)
          (thresholdframecount s) (printed s) (logged s) (videos s).

Definition set_quietlen (v : Z) (s : State) : State :=
  mkState (recording s) (savedframes s) v (framebuffer s) (cooldown s)
          (thresholdframecount s) (printed s) (logged s) (videos s).

Definition set_framebuffer (v : list Frame) (s : State) : State :=
  mkState (recording s) (savedframes s) (quietlen s) v (cooldown s)
          (thresholdframecount s) (printed s) (logged s) (videos s).

Definition set_cooldown (v : Z) (s : State) : State :=
  mkState (recording s) (savedframes s) (quietlen s) (framebuffer s) v
          (thresholdframecount s) (printed s) (logged s) (videos s).

Definition set_thresholdframecount (v : Z) (s : State) : State :=
  mkState (recording s) (savedframes s) (quietlen s) (framebuffer s)
          (cooldown s) v (printed s) (logged s) (videos s).

Definition add_video (v : Video) (s : State) : State :=
  mkState (recording s) (savedframes s) (quietlen s) (framebuffer s)
          (cooldown s) (thresholdframecount s) (printed s) (logged s)
          (videos s ++ [v]).

(** What the loop reads from the outside world in one iteration: the frame
    returned by [cam.read()] (timestamp already drawn on it) and the free
    space [shutil.disk_usage] would report, in bytes. *)
Record Input : Type := mkInput {
  frame : Frame;
  disk_free : Z
}.

Section MainLoop.

Variable bgr2gray : Pixel -> byte.
Variable cfg : Config.

(** [if logging==True: logwrite(msg)] *)
Definition log_if_enabled (e : event) (log : list event) : list event :=
  if logging cfg then log ++ [e] else log.

(** A line that goes to the log file, when enabled, and to the terminal. *)
Definition report (e : event) (s : State) : State :=
  mkState (recording s) (savedframes s) (quietlen s) (framebuffer s)
          (cooldown s) (thresholdframecount s) (printed s ++ [e])
          (log_if_enabled e (logged s)) (videos s).

(** [savetofile()] *)
Definition savetofile (s : State) (free : Z) : outcome State :=
  let writable :=
    if diskcheck cfg
    then negb (((free / 1024) / 1024) / 1024 <? minfreespace cfg)
    else true in
  if diskcheck cfg && negb writable then
    (* cam.release() *)
    let s := report (HddSpaceBelow (minfreespace cfg)) s in
    Exit 1 (printed s)
  else
    first <- py_getitem (savedframes s) 0 ;;
    let size := (width first, height first) in
    let s := add_video (mkVideo size (savedframes s)) s in
    let s := report (FramesSaved (len (savedframes s))) s in
    Ok (set_savedframes [] s).

(** [signal_handler(sig, exframe)] *)
Definition signal_handler (s : State) (free : Z) : outcome State :=
  s <- savetofile s free ;;
  (* cam.release() *)
  Exit 0 (printed s).

(** [framediff(frame, framebuffer[maxframes-1])], as it appears four times
    in the loop. *)
Definition score (s : State) (frame : Frame) : outcome Z :=
  last <- py_getitem (framebuffer s) (maxframes cfg - 1) ;;
  framediff bgr2gray frame last.

(** "Check thresholdframes variable.  Add to it if the frame passes the
    threshold, put it to 0 if it does not."  The conjuncts of an [and] are
    evaluated left to right and only as far as needed. *)
Definition check_thresholdframes (s : State) (frame : Frame) : outcome State :=
  passed <- (if negb (recording s)
                && (thresholdframecount s <? thresholdframes cfg)
             then d <- score s frame ;; Ok (d >=? threshold cfg)
             else Ok false) ;;
  if passed then
    Ok (set_thresholdframecount (thresholdframecount s + 1) s)
  else
    missed <- (if negb (recording s)
               then d <- score s frame ;; Ok (d <? threshold cfg)
               else Ok false) ;;
    if missed then Ok (set_thresholdframecount 0 s) else Ok s.

(** "Start recording if we reach the movement threshold, and add the
    framebuffer to the saved frames." *)
Definition start_guard (s : State) : bool :=
  negb (recording s)
  && (cooldown s >=? maxframes cfg)
  && (thresholdframecount s >=? thresholdframes cfg).

Definition start_recording (s : State) : State :=
  if start_guard s then
    let s := report StartedRecording s in
    let s := set_savedframes (savedframes s ++ framebuffer s) s in
    let s := set_thresholdframecount 0 s in
    set_recording true s
  else s.

(** "If we're recording, add the current frame." *)
Definition add_current_frame (s : State) (frame : Frame) : State :=
  if recording s && (quietlen s <? maxframes cfg)
  then set_savedframes (savedframes s ++ [frame]) s
  else s.

(** "Check if the threshold has been reached and we have to reset the
    length of quiet frames", else "increment the quiet frames counter if
    the frame diff is under threshold." *)
Definition count_quiet (s : State) (frame : Frame) : outcome State :=
  loud <- (if recording s
           then d <- score s frame ;;
                Ok ((d >=? threshold cfg) && (quietlen s >? 0))
           else Ok false) ;;
  if loud then Ok (set_quietlen 0 s)
  else
    quiet <- (if recording s
              then d <- score s frame ;; Ok (d <? threshold cfg)
              else Ok false) ;;
    if quiet then Ok (set_quietlen (quietlen s + 1) s) else Ok s.

(** "Stop recording if video has been quiet as long as maxframes, and
    start cooldown." *)
Definition stop_guard (s : State) : bool :=
  (quietlen s >? maxframes cfg - 1) && recording s.

Definition stop_recording (s : State) : State :=
  if stop_guard s then
    let s := report StoppedRecording s in
    let s := set_recording false s in
    set_cooldown 0 s
  else s.

Definition advance_cooldown (s : State) : State :=
  if negb (recording s) && (cooldown s <? maxframes cfg)
  then set_cooldown (cooldown s + 1) s
  else s.

(** "Pop off the first frame, then add the latest frame to the buffer." *)
Definition rotate_framebuffer (s : State) (frame : Frame) : outcome State :=
  rest <- py_pop0 (framebuffer s) ;;
  Ok (set_framebuffer (rest ++ [frame]) s).

(** Everything in the loop body before the final size check. *)
Definition update (s : State) (frame : Frame) : outcome State :=
  s <- check_thresholdframes s frame ;;
  let s := start_recording s in
  let s := add_current_frame s frame in
  s <- count_quiet s frame ;;
  let s := stop_recording s in
  let s := advance_cooldown s in
  rotate_framebuffer s frame.

(** [if len(savedframes)>maxsavedframes-1: savetofile()] *)
Definition flush_guard (s : State) : bool :=
  len (savedframes s) >? maxsavedframes cfg - 1.

Definition flush_if_full (s : State) (free : Z) : outcome State :=
  if flush_guard s then savetofile s free else Ok s.

(** One iteration of [while True]. *)
Definition loop_body (s : State) (i : Input) : outcome State :=
  s <- update s (frame i) ;;
  flush_if_full s (disk_free i).

(** The loop over the inputs of finitely many iterations. *)
Fixpoint main_loop (s : State) (inputs : list Input) : outcome State :=
  match inputs with
  | [] => Ok s
  | i :: rest => s <- loop_body s i ;; main_loop s rest
  end.

(** The globals at the top of the first iteration: the frame buffer holds
    the first [maxframes] frames read from the camera.  [printed] and
    [logged] collect what the loop and [savetofile] write from here on; the
    notices of the start-up probes and the line "Init complete.", which go
    to the terminal only, precede them and are not part of [printed]. *)
Definition init_state (first_frames : list Frame) : State :=
  {| recording := false;
     savedframes := [];
     quietlen := 0;
     framebuffer := first_frames;
     cooldown := maxframes cfg;
     thresholdframecount := 0;
     printed := [];
     logged := [];
     videos := [] |}.

End MainLoop.

(** [if thresholdframes<1: thresholdframes=1], done once before the loop. *)
Definition clamp_thresholdframes (c : Config) : Config :=
  {| maxframes := maxframes c;
     threshold := threshold c;
     thresholdframes := if thresholdframes c <? 1 then 1 else thresholdframes c;
     maxsavedframes := maxsavedframes c;
     minfreespace := minfreespace c;
     logging := logging c;
     diskcheck := diskcheck c |}.

(** The script from its first line: initialise from the first [maxframes]
    camera frames ([range(0, maxframes)] is empty for a non-positive
    bound), clamp [thresholdframes], then loop. *)
Definition script (bgr2gray : Pixel -> byte) (c : Config)
    (camera : list Frame) (inputs : list Input) : outcome State :=
  let cfg := clamp_thresholdframes c in
  main_loop bgr2gray cfg
    (init_state cfg (firstn (Z.to_nat (maxframes c)) camera)) inputs.

(** The values the script ships with. *)
Definition default_config : Config :=
  {| maxframes := 15;
     threshold := 15;
     thresholdframes := 1;
     maxsavedframes := 1000;
     minfreespace := 1;
     logging := true;
     diskcheck := true |}.

(** ** Quantities the properties speak about *)

(** The intensity [cv2.cvtColor] gives the pixel in row [i], column [j]. *)
Definition gray_at (bgr2gray : Pixel -> byte) (f : Frame) (i j : nat) : Z :=
  byte_val (bgr2gray (pixel f i j)).

(** The value of [np.sum(cv2.subtract(gray1, gray2))] for two frames of the
    shape of [a]. *)
Definition summed_difference (bgr2gray : Pixel -> byte) (a b : Frame) : Z :=
  sum2 (height a) (width a)
       (fun i j => saturate_u8 (gray_at bgr2gray a i j - gray_at bgr2gray b i j))
  mod 2 ^ 64.

(** The sums over all pixels of the positive part of [a - b] and of
    [|a - b|], without the 64-bit accumulator. *)
Definition positive_part_sum (bgr2gray : Pixel -> byte) (a b : Frame) : Z :=
  sum2 (height a) (width a)
       (fun i j => Z.max 0 (gray_at bgr2gray a i j - gray_at bgr2gray b i j)).

Definition absolute_difference_sum (bgr2gray : Pixel -> byte) (a b : Frame) : Z :=
  sum2 (height a) (width a)
       (fun i j => Z.abs (gray_at bgr2gray a i j - gray_at bgr2gray b i j)).

(** The normaliser as the design document words it: the sum divided, with
    integer division, by the product of the integer halves of height and
    width. *)
Definition integer_halves_score (h w : nat) (s : Z) : Z :=
  s / ((Z.of_nat h / 2) * (Z.of_nat w / 2)).

(** The exception the design document asks for on a frame without area.
    The script defines no such class. *)
Definition InvalidFrameError : exn := "InvalidFrameError"%string.

(** The two ends of the frame buffer: [pop(0)] removes at the head and
    [append] adds at the tail. *)
Definition oldest (s : State) : option Frame := hd_error (framebuffer s).
Definition newest (s : State) : option Frame :=
  nth_error (framebuffer s) (length (framebuffer s) - 1).

(** ** The iteration as a function of its score

    All four calls of [framediff] in one iteration have the same arguments,
    so the iteration can be read with the score computed once.  The
    definitions below are that reading; [update_hoisted] and
    [loop_body_scored] relate them to the loop body above. *)

Section Scored.

Variable cfg : Config.

Definition check_thresholdframes_at (d : Z) (s : State) : State :=
  if negb (recording s) && (thresholdframecount s <? thresholdframes cfg)
     && (d >=? threshold cfg)
  then set_thresholdframecount (thresholdframecount s + 1) s
  else if negb (recording s) && (d <? threshold cfg)
       then set_thresholdframecount 0 s
       else s.

Definition count_quiet_at (d : Z) (s : State) : State :=
  if recording s && ((d >=? threshold cfg) && (quietlen s >? 0))
  then set_quietlen 0 s
  else if recording s && (d <? threshold cfg)
       then set_quietlen (quietlen s + 1) s
       else s.

(** The state on which the start guard is evaluated. *)
Definition before_start (d : Z) (s : State) : State :=
  check_thresholdframes_at d s.

(** The state on which the stop guard is evaluated. *)
Definition before_stop (d : Z) (s : State) (f : Frame) : State :=
  count_quiet_at d
    (add_current_frame cfg (start_recording cfg (before_start d s)) f).

(** The state when the counters are done, the frame buffer not yet
    rotated. *)
Definition rules_at (d : Z) (s : State) (f : Frame) : State :=
  advance_cooldown cfg (stop_recording cfg (before_stop d s f)).

Definition rotated (s : State) (f : Frame) : State :=
  set_framebuffer (tl (framebuffer s) ++ [f]) s.

(** The state on which the size check is evaluated. *)
Definition before_flush (d : Z) (s : State) (f : Frame) : State :=
  rotated (rules_at d s f) f.

(** The state a successful [savetofile] leaves. *)
Definition flushed (s : State) : State :=
  match savedframes s with
  | [] => s
  | first :: _ =>
      set_savedframes []
        (report cfg (FramesSaved (len (savedframes s)))
           (add_video (mkVideo (width first, height first) (savedframes s)) s))
  end.

(** The free-space test of [savetofile] passes, or is disabled. *)
Definition enough_space (i : Input) : bool :=
  negb (diskcheck cfg)
  || negb (((disk_free i / 1024) / 1024) / 1024 <? minfreespace cfg).

Definition step_at (d : Z) (s : State) (i : Input) : State :=
  let s' := before_flush d s (frame i) in
  if flush_guard cfg s' then flushed s' else s'.

(** The frame buffer has the length the initialisation gave it. *)
Definition full_buffer (s : State) : Prop :=
  len (framebuffer s) = maxframes cfg.

(** The ranges the design document gives the configuration. *)
Definition sane : Prop :=
  1 <= maxframes cfg /\ 1 <= thresholdframes cfg /\ 1 <= maxsavedframes cfg.

Definition has_started (s : State) : bool :=
  existsb (fun e => match e with StartedRecording => true | _ => false end)
          (printed s).

End Scored.

(** The scores of consecutive iterations: each frame is compared with the
    one read before it. *)
Fixpoint scores (bgr2gray : Pixel -> byte) (prev : Frame) (fs : list Frame)
    : list (outcome Z) :=
  match fs with
  | [] => []
  | f :: rest => framediff bgr2gray f prev :: scores bgr2gray f rest
  end.

Definition loud (cfg : Config) (r : outcome Z) : bool :=
  match r with Ok d => d >=? threshold cfg | _ => false end.

Definition quiet (cfg : Config) (r : outcome Z) : bool :=
  match r with Ok d => d <? threshold cfg | _ => false end.

(** The states the script can be in at the top of the loop. *)
Inductive reachable (bgr2gray : Pixel -> byte) (cfg : Config) : State -> Prop :=
| reach_init (first_frames : list Frame) :
    len first_frames = maxframes cfg ->
    reachable bgr2gray cfg (init_state cfg first_frames)
| reach_step (s s' : State) (i : Input) :
    reachable bgr2gray cfg s ->
    loop_body bgr2gray cfg s i = Ok s' ->
    reachable bgr2gray cfg s'.

(** The start guard holds in this iteration: the test of line 199 succeeds
    on the state the threshold check leaves. *)
Definition starts (bgr2gray : Pixel -> byte) (cfg : Config) (s : State)
    (f : Frame) : bool :=
  match check_thresholdframes bgr2gray cfg s f with
  | Ok s1 => start_guard cfg s1
  | _ => false
  end.

(** What [quietlen] can be at the top of the loop: it stays within
    [0..maxframes], is below [maxframes] while a recording runs, and is left
    at [maxframes] by the recording that stopped last. *)
Definition quietlen_invariant (cfg : Config) (s : State) : Prop :=
  0 <= quietlen s <= maxframes cfg
  /\ (recording s = true -> quietlen s < maxframes cfg)
  /\ (recording s = false -> has_started s = true ->
      quietlen s = maxframes cfg).

(** ** Observations on a state *)

(** Every frame handed to the video writer so far, in the order written,
    followed by the frames still waiting in [savedframes]. *)
Definition recorded (s : State) : list Frame :=
  concat (map video_frames (videos s)) ++ savedframes s.

Definition is_started (e : event) : bool :=
  match e with StartedRecording => true | _ => false end.

Definition is_stopped (e : event) : bool :=
  match e with StoppedRecording => true | _ => false end.

(** How many of the lines satisfy [p]. *)
Definition count_lines (p : event -> bool) (l : list event) : Z :=
  len (filter p l).

(** The numbers of the "n frames saved." lines, in order. *)
Definition saved_counts (l : list event) : list Z :=
  flat_map (fun e => match e with FramesSaved n => [n] | _ => [] end) l.

Definition has_shape (h w : nat) (f : Frame) : Prop :=
  height f = h /\ width f = w.

(** One gibibyte, the unit of [minfreespace]. *)
Definition GiB : Z := 1024 * 1024 * 1024.

(** ** Concrete data for the examples *)

Module Sample.

(** A grayscale weighting in 15-bit fixed point,
    [0.114 B + 0.587 G + 0.299 R]. *)
Definition luma (p : Pixel) : byte :=
  match Byte.of_N (Z.to_N (Z.shiftr (byte_val (blue p) * 3735
                                     + byte_val (green p) * 19235
                                     + byte_val (red p) * 9798 + 16384) 15)) with
  | Some b => b
  | None => x00
  end.

(** A frame of one colour with equal channels. *)
Definition solid (h w : nat) (v : byte) : Frame :=
  mkFrame h w (fun _ _ => mkPixel v v v).

Definition black := solid 2 2 x00.
Definition dim := solid 2 2 x10.
Definition white := solid 2 2 xff.

Definition GiB : Z := 1024 * 1024 * 1024.

(** An iteration that reads [f] while 5 GiB are free. *)
Definition see (f : Frame) : Input := mkInput f (5 * GiB).

(** A one-frame buffer and a start after a single loud frame. *)
Definition small : Config :=
  {| maxframes := 1; threshold := 15; thresholdframes := 1;
     maxsavedframes := 1000; minfreespace := 1;
     logging := true; diskcheck := true |}.

(** A two-frame buffer. *)
Definition pair : Config :=
  {| maxframes := 2; threshold := 15; thresholdframes := 2;
     maxsavedframes := 1000; minfreespace := 1;
     logging := true; diskcheck := true |}.

(** Files of at most two frames. *)
Definition tiny : Config :=
  {| maxframes := 1; threshold := 15; thresholdframes := 1;
     maxsavedframes := 2; minfreespace := 1;
     logging := false; diskcheck := true |}.

Definition state_of (r : outcome State) : State :=
  match r with
  | Ok s => s
  | _ => init_state small []
  end.

(** The state after a first recording has started and stopped: the camera
    shows black, then two dim frames. *)
Definition after_first_recording : State :=
  state_of (script luma small [black] [see dim; see dim]).

End Sample.

(** * Properties *)

(** ** The frame differencer *)

Lemma byte_val_range (b : byte) : 0 <= byte_val b <= 255.
Proof.
  unfold byte_val. pose proof (Byte.to_N_bounded b). lia.
Qed.

Lemma sum_upto_ext (n : nat) (f g : nat -> Z) :
  (forall i, (i < n)%nat -> f i = g i) -> sum_upto n f = sum_upto n g.
Proof.
  intros E. unfold sum_upto. f_equal. apply map_ext_in.
  intros i Hi. apply in_seq in Hi. apply E. lia.
Qed.

Lemma sum_upto_add (n : nat) (f g : nat -> Z) :
  sum_upto n (fun i => f i + g i) = sum_upto n f + sum_upto n g.
Proof.
  unfold sum_upto. induction (seq 0 n) as [|x l IH]; simpl; [reflexivity|].
  rewrite IH. ring.
Qed.

Lemma sum2_ext (h w : nat) (f g : nat -> nat -> Z) :
  (forall i j, f i j = g i j) -> sum2 h w f = sum2 h w g.
Proof.
  intros E. unfold sum2. apply sum_upto_ext. intros i _.
  apply sum_upto_ext. intros j _. apply E.
Qed.

Lemma sum2_add (h w : nat) (f g : nat -> nat -> Z) :
  sum2 h w (fun i j => f i j + g i j) = sum2 h w f + sum2 h w g.
Proof.
  unfold sum2. rewrite <- sum_upto_add. apply sum_upto_ext. intros i _.
  apply sum_upto_add.
Qed.

(** On intensities, which lie in 0..255, the upper clamp of the saturating
    subtraction never acts: what is summed is the positive part. *)
Lemma saturate_positive_part (x y : byte) :
  saturate_u8 (byte_val x - byte_val y) = Z.max 0 (byte_val x - byte_val y).
Proof.
  unfold saturate_u8.
  pose proof (byte_val_range x). pose proof (byte_val_range y). lia.
Qed.

Lemma summed_difference_positive_part (g : Pixel -> byte) (a b : Frame) :
  summed_difference g a b = positive_part_sum g a b mod 2 ^ 64.
Proof.
  unfold summed_difference, positive_part_sum. f_equal.
  apply sum2_ext. intros i j. apply saturate_positive_part.
Qed.

Lemma summed_difference_nonneg (g : Pixel -> byte) (a b : Frame) :
  0 <= summed_difference g a b.
Proof.
  unfold summed_difference. apply Z.mod_pos_bound. reflexivity.
Qed.

(** Truncating the quotient by [(h/2)*(w/2)], halves not rounded, is the
    integer quotient of four times the sum by the pixel count. *)
Lemma normalise_exact (h w : nat) (s : Z) :
  (0 < h)%nat -> (0 < w)%nat -> 0 <= s ->
  let q := (inject_Z s / ((inject_Z (Z.of_nat h) / 2) * (inject_Z (Z.of_nat w) / 2)))%Q in
  py_int (true_divide s ((inject_Z (Z.of_nat h) / 2) * (inject_Z (Z.of_nat w) / 2))%Q)
  = Ok (4 * s / (Z.of_nat h * Z.of_nat w))
  /\ 4 * s / (Z.of_nat h * Z.of_nat w) = Qfloor q.
Proof.
  intros Hh Hw Hs.
  set (H := Z.of_nat h). set (W := Z.of_nat w).
  assert (HH : 0 < H) by (unfold H; lia).
  assert (HW : 0 < W) by (unfold W; lia).
  assert (NH : ~ (inject_Z H == 0)%Q) by (unfold Qeq; simpl; lia).
  assert (NW : ~ (inject_Z W == 0)%Q) by (unfold Qeq; simpl; lia).
  assert (ND : ~ ((inject_Z H / 2) * (inject_Z W / 2) == 0)%Q).
  { intro E.
    assert (E' : (inject_Z H * inject_Z W == 0)%Q).
    { setoid_replace (inject_Z H * inject_Z W)%Q
        with (4 * ((inject_Z H / 2) * (inject_Z W / 2)))%Q by field.
      rewrite E. reflexivity. }
    unfold Qeq in E'; simpl in E'. nia. }
  assert (EQ : (inject_Z s / ((inject_Z H / 2) * (inject_Z W / 2))
                == inject_Z (4 * s) / inject_Z (H * W))%Q).
  { rewrite !inject_Z_mult. field. split; assumption. }
  assert (FL : 4 * s / (H * W)
               = Qfloor (inject_Z s / ((inject_Z H / 2) * (inject_Z W / 2)))).
  { rewrite (Qfloor_comp _ _ EQ). apply Zdiv_Qdiv. }
  intro q. split; [|exact FL].
  unfold true_divide.
  destruct (Qeq_bool _ 0) eqn:E0.
  { apply Qeq_bool_iff in E0. contradiction. }
  unfold py_int. f_equal. unfold Qtrunc.
  destruct (Qle_bool 0 _) eqn:E1.
  - symmetry. exact FL.
  - exfalso.
    assert (L : (0 <= inject_Z s / ((inject_Z H / 2) * (inject_Z W / 2)))%Q).
    { rewrite EQ. apply Qle_shift_div_l.
      - change 0%Q with (inject_Z 0). rewrite <- Zlt_Qlt. nia.
      - rewrite Qmult_0_l. change 0%Q with (inject_Z 0).
        rewrite <- Zle_Qle. lia. }
    apply Qle_bool_iff in L. congruence.
Qed.

(** The value of [framediff] on two frames of one non-empty shape. *)
Lemma framediff_value (g : Pixel -> byte) (a b : Frame) :
  height a = height b -> width a = width b ->
  (0 < height a)%nat -> (0 < width a)%nat ->
  framediff g a b
  = Ok (4 * summed_difference g a b
        / (Z.of_nat (height a) * Z.of_nat (width a))).
Proof.
  intros Eh Ew Hh Hw.
  unfold framediff, cvtColor.
  rewrite <- Eh, <- Ew.
  destruct (height a) as [|h'] eqn:Ha; [lia|].
  destruct (width a) as [|w'] eqn:Wa; [lia|].
  cbn [Nat.eqb orb bind]. unfold subtract. cbn [gheight gwidth].
  rewrite !Nat.eqb_refl. cbn [andb bind gheight gwidth]. unfold np_sum.
  cbn [gheight gwidth gval].
  pose proof (summed_difference_nonneg g a b) as NN.
  unfold summed_difference, gray_at in NN |- *. rewrite Ha, Wa in NN |- *.
  apply (normalise_exact (h := S h') (w := S w')); [lia | lia | exact NN].
Qed.

(** C3, counterexample: a white frame against a black one scores 1020, the
    black one against the white one scores 0. *)
Lemma framediff_not_symmetric :
  height Sample.white = height Sample.black
  /\ width Sample.white = width Sample.black
  /\ height Sample.white <> 0%nat
  /\ width Sample.white <> 0%nat
  /\ framediff Sample.luma Sample.white Sample.black
     <> framediff Sample.luma Sample.black Sample.white.
Proof.
  split; [reflexivity|]. split; [reflexivity|].
  split; [discriminate|]. split; [discriminate|].
  vm_compute. discriminate.
Qed.

(** C3, as the code has it: on two frames of one non-empty shape [framediff]
    sums the saturating difference [max(0, a - b)] of the intensities, the
    positive part of [a - b], not its absolute value.  The scores in the two
    directions are the normalised sums of the positive and of the negative
    part; these two sums add up to the summed absolute difference, and the
    scores agree whenever the sums do. *)
Theorem framediff_one_sided (g : Pixel -> byte) (a b : Frame) :
  height a = height b -> width a = width b ->
  (0 < height a)%nat -> (0 < width a)%nat ->
  let area := Z.of_nat (height a) * Z.of_nat (width a) in
  framediff g a b = Ok (4 * (positive_part_sum g a b mod 2 ^ 64) / area)
  /\ framediff g b a = Ok (4 * (positive_part_sum g b a mod 2 ^ 64) / area)
  /\ positive_part_sum g a b + positive_part_sum g b a
     = absolute_difference_sum g a b
  /\ (positive_part_sum g a b = positive_part_sum g b a ->
      framediff g a b = framediff g b a).
Proof.
  intros Eh Ew Hh Hw area.
  assert (AB : framediff g a b
               = Ok (4 * (positive_part_sum g a b mod 2 ^ 64) / area)).
  { rewrite (framediff_value g a b Eh Ew Hh Hw).
    rewrite summed_difference_positive_part. reflexivity. }
  assert (BA : framediff g b a
               = Ok (4 * (positive_part_sum g b a mod 2 ^ 64) / area)).
  { rewrite (framediff_value g b a (eq_sym Eh) (eq_sym Ew)) by lia.
    rewrite summed_difference_positive_part. unfold area.
    rewrite Eh, Ew. reflexivity. }
  split; [exact AB|]. split; [exact BA|]. split.
  - unfold positive_part_sum, absolute_difference_sum.
    rewrite <- Eh, <- Ew, <- sum2_add. apply sum2_ext. intros i j. lia.
  - intros E. rewrite AB, BA, E. reflexivity.
Qed.

Lemma framediff_one_sided_witness :
  let a := Sample.white in
  let b := Sample.black in
  height a = height b /\ width a = width b
  /\ (0 < height a)%nat /\ (0 < width a)%nat
  /\ framediff Sample.luma a b
     = Ok (4 * (positive_part_sum Sample.luma a b mod 2 ^ 64) / (2 * 2))
  /\ positive_part_sum Sample.luma a b + positive_part_sum Sample.luma b a
     = absolute_difference_sum Sample.luma a b.
Proof.
  intros a b.
  assert (Eh : height a = height b) by reflexivity.
  assert (Ew : width a = width b) by reflexivity.
  assert (Hh : (0 < height a)%nat) by (simpl; lia).
  assert (Hw : (0 < width a)%nat) by (simpl; lia).
  destruct (framediff_one_sided Sample.luma a b Eh Ew Hh Hw) as (AB & _ & S & _).
  split; [exact Eh|]. split; [exact Ew|]. split; [exact Hh|].
  split; [exact Hw|]. split; [exact AB | exact S].
Defined.

(** C4, counterexample: a frame of height 0 does not make [framediff] raise
    an [InvalidFrameError]. *)
Lemma framediff_empty_not_InvalidFrameError :
  let f := Sample.solid 0 2 xff in
  height f = 0%nat
  /\ framediff Sample.luma f Sample.black <> Raise InvalidFrameError.
Proof.
  split; [reflexivity|]. vm_compute. discriminate.
Qed.

(** C4, as the code has it: when either frame has height 0 or width 0,
    [framediff] fails in the grayscale conversion with OpenCV's [cv2.error];
    the division is not reached, so none of the errors of the division
    ([ValueError], [OverflowError]) is raised. *)
Theorem framediff_empty_frame (g : Pixel -> byte) (a b : Frame) :
  height a = 0%nat \/ width a = 0%nat \/ height b = 0%nat \/ width b = 0%nat ->
  framediff g a b = Raise cv2_error
  /\ framediff g a b <> Raise ValueError
  /\ framediff g a b <> Raise OverflowError.
Proof.
  intros E.
  assert (R : framediff g a b = Raise cv2_error).
  { unfold framediff, cvtColor.
    destruct (height a) as [|ha]; [reflexivity|].
    destruct (width a) as [|wa]; [reflexivity|].
    destruct (height b) as [|hb]; [reflexivity|].
    destruct (width b) as [|wb]; [reflexivity|].
    exfalso. destruct E as [E|[E|[E|E]]]; discriminate. }
  rewrite R. repeat split; discriminate.
Qed.

Lemma framediff_empty_frame_witness :
  let f := Sample.solid 2 0 xff in
  width f = 0%nat /\ framediff Sample.luma Sample.black f = Raise cv2_error.
Proof.
  intros f. split; [reflexivity|].
  apply (framediff_empty_frame Sample.luma Sample.black f).
  right. right. right. reflexivity.
Defined.

(** C9, counterexample: on 3x3 frames the halves are 1.5, not 1; a white
    frame against a black one scores 1020 while the sum 2295 divided by the
    product of the integer halves is 2295. *)
Lemma framediff_not_integer_halves :
  let a := Sample.solid 3 3 xff in
  let b := Sample.solid 3 3 x00 in
  (0 < height a)%nat /\ (0 < width a)%nat
  /\ height a = height b /\ width a = width b
  /\ framediff Sample.luma a b
     <> Ok (integer_halves_score (height a) (width a)
              (summed_difference Sample.luma a b)).
Proof.
  split; [simpl; lia|]. split; [simpl; lia|].
  split; [reflexivity|]. split; [reflexivity|].
  vm_compute. discriminate.
Qed.

(** C9, as the code has it: for two frames of one shape with [h > 0] and
    [w > 0] the score is the summed pixel difference divided by
    [(h/2) * (w/2)] with the halves not rounded, the quotient then truncated:
    the integer quotient of four times the sum by [h * w].  When [h] and [w]
    are both even this is the sum divided by the product of the integer
    halves. *)
Theorem framediff_normalisation (g : Pixel -> byte) (a b : Frame) :
  height a = height b -> width a = width b ->
  (0 < height a)%nat -> (0 < width a)%nat ->
  let h := Z.of_nat (height a) in
  let w := Z.of_nat (width a) in
  let s := summed_difference g a b in
  framediff g a b = Ok (4 * s / (h * w))
  /\ 4 * s / (h * w)
     = Qfloor (inject_Z s / ((inject_Z h / 2) * (inject_Z w / 2)))%Q
  /\ (Z.even h = true -> Z.even w = true ->
      4 * s / (h * w) = integer_halves_score (height a) (width a) s).
Proof.
  intros Eh Ew Hh Hw h w s.
  split; [apply framediff_value; assumption|].
  split.
  - apply (normalise_exact (h := height a) (w := width a)); try assumption.
    apply summed_difference_nonneg.
  - intros Evh Evw. unfold integer_halves_score. fold h. fold w.
    apply Z.even_spec in Evh. destruct Evh as [h2 Eh2].
    apply Z.even_spec in Evw. destruct Evw as [w2 Ew2].
    assert (0 < h2) by lia. assert (0 < w2) by lia.
    rewrite Eh2, Ew2.
    replace (2 * h2 / 2) with h2 by (apply Z.div_unique_exact; lia).
    replace (2 * w2 / 2) with w2 by (apply Z.div_unique_exact; lia).
    replace (2 * h2 * (2 * w2)) with (4 * (h2 * w2)) by ring.
    apply Z.div_mul_cancel_l; nia.
Qed.

Lemma framediff_normalisation_witness :
  let a := Sample.white in
  let b := Sample.black in
  height a = height b /\ width a = width b
  /\ (0 < height a)%nat /\ (0 < width a)%nat
  /\ framediff Sample.luma a b
     = Ok (4 * summed_difference Sample.luma a b / (2 * 2))
  /\ 4 * summed_difference Sample.luma a b / (2 * 2)
     = integer_halves_score 2 2 (summed_difference Sample.luma a b).
Proof.
  intros a b.
  assert (Eh : height a = height b) by reflexivity.
  assert (Ew : width a = width b) by reflexivity.
  assert (Hh : (0 < height a)%nat) by (simpl; lia).
  assert (Hw : (0 < width a)%nat) by (simpl; lia).
  destruct (framediff_normalisation Sample.luma a b Eh Ew Hh Hw) as (V & _ & I).
  split; [exact Eh|]. split; [exact Ew|]. split; [exact Hh|].
  split; [exact Hw|]. split; [exact V|].
  apply I; reflexivity.
Defined.

(** ** The loop body with the score computed once *)

Ltac fields :=
  cbn [recording savedframes quietlen framebuffer cooldown thresholdframecount
       printed logged videos
       set_recording set_savedframes set_quietlen set_framebuffer set_cooldown
       set_thresholdframecount add_video report negb andb orb].

(** Turns the decided tests in the hypotheses into (in)equalities. *)
Ltac test_facts :=
  repeat match goal with
    | H : (_ <? _) = true |- _ => apply Z.ltb_lt in H
    | H : (_ <? _) = false |- _ => apply Z.ltb_ge in H
    end.

(** Every test written with [<?]; a comparison decided before is reused. *)
Ltac simplify_tests :=
  fields;
  rewrite ?Z.geb_leb, ?Z.gtb_ltb, ?Z.leb_antisym;
  repeat match goal with
    | H : (?x <? ?y) = _ |- context [?x <? ?y] => rewrite H
    end;
  fields.

(** Decides the tests of the goal one comparison at a time. *)
Ltac decide_tests :=
  simplify_tests;
  repeat (match goal with
          | |- context [if ?b then _ else _] =>
              match b with
              | context [?x <? ?y] => destruct (x <? y) eqn:?
              | context [?v] =>
                  is_var v;
                  lazymatch type of v with bool => destruct v end
              end
          end;
          simplify_tests).

(** Unfolds one rule of the loop on a state that is an explicit record and
    decides its tests. *)
Ltac rule r := unfold r; decide_tests.

(** Goals about the fields after an iteration.  The states are opened into
    their fields, hypotheses about the rules join the goal, and the rules are
    taken one at a time in the order the loop runs them, so that no rule is
    ever applied to an undecided state. *)
Ltac counters :=
  repeat match goal with
    | H : context [rules_at] |- _ => revert H
    | H : context [before_stop] |- _ => revert H
    | H : context [before_start] |- _ => revert H
    | H : context [step_at] |- _ => revert H
    | H : context [before_flush] |- _ => revert H
    end;
  repeat match goal with
    | s : State |- _ => destruct s
    end;
  cbn [recording savedframes quietlen framebuffer cooldown thresholdframecount
       printed logged videos] in *;
  subst;
  unfold step_at, before_flush, rules_at, before_stop, before_start;
  fields;
  rule check_thresholdframes_at;
  unfold start_recording; rule start_guard;
  rule add_current_frame;
  rule count_quiet_at;
  unfold stop_recording; rule stop_guard;
  rule advance_cooldown;
  unfold rotated; fields;
  intros; test_facts;
  try reflexivity; try lia; try congruence.

Section LoopFacts.

Variable bgr2gray : Pixel -> byte.
Variable cfg : Config.

Lemma score_same_buffer (s1 s2 : State) (f : Frame) :
  framebuffer s1 = framebuffer s2 ->
  score bgr2gray cfg s1 f = score bgr2gray cfg s2 f.
Proof. intros E. unfold score. rewrite E. reflexivity. Qed.

Lemma check_thresholdframes_scored (s : State) (f : Frame) (d : Z) :
  score bgr2gray cfg s f = Ok d ->
  check_thresholdframes bgr2gray cfg s f = Ok (check_thresholdframes_at cfg d s).
Proof.
  intros E. unfold check_thresholdframes, check_thresholdframes_at.
  rewrite E. cbn [bind].
  destruct (recording s), (thresholdframecount s <? thresholdframes cfg),
    (d >=? threshold cfg), (d <? threshold cfg); reflexivity.
Qed.

Lemma count_quiet_scored (s : State) (f : Frame) (d : Z) :
  score bgr2gray cfg s f = Ok d ->
  count_quiet bgr2gray cfg s f = Ok (count_quiet_at cfg d s).
Proof.
  intros E. unfold count_quiet, count_quiet_at. rewrite E. cbn [bind].
  destruct (recording s), (d >=? threshold cfg), (quietlen s >? 0),
    (d <? threshold cfg); reflexivity.
Qed.

Lemma framebuffer_before_count (d : Z) (s : State) (f : Frame) :
  framebuffer
    (add_current_frame cfg (start_recording cfg (before_start cfg d s)) f)
  = framebuffer s.
Proof. counters. Qed.

Lemma framebuffer_rules_at (d : Z) (s : State) (f : Frame) :
  framebuffer (rules_at cfg d s f) = framebuffer s.
Proof. counters. Qed.

(** One iteration consumes one score: the value of
    [framediff(frame, framebuffer[maxframes-1])] on the frame buffer the
    iteration starts with. *)
Lemma update_hoisted (s : State) (f : Frame) :
  update bgr2gray cfg s f
  = (d <- score bgr2gray cfg s f ;; rotate_framebuffer (rules_at cfg d s f) f).
Proof.
  destruct (score bgr2gray cfg s f) as [d|e|c out] eqn:E; cbn [bind].
  - unfold update.
    rewrite (check_thresholdframes_scored s f E). cbn [bind].
    rewrite (@count_quiet_scored _ f d).
    + reflexivity.
    + rewrite <- E. apply score_same_buffer.
      apply (framebuffer_before_count d s f).
  - unfold update, check_thresholdframes.
    destruct (recording s) eqn:R; cbn [negb andb].
    + cbn [bind]. unfold count_quiet.
      assert (R' : recording (add_current_frame cfg (start_recording cfg s) f) = true)
        by (counters).
      assert (B : framebuffer (add_current_frame cfg (start_recording cfg s) f)
                  = framebuffer s) by (counters).
      rewrite R', (score_same_buffer _ _ f B), E. reflexivity.
    + rewrite E. destruct (thresholdframecount s <? thresholdframes cfg); reflexivity.
  - unfold update, check_thresholdframes.
    destruct (recording s) eqn:R; cbn [negb andb].
    + cbn [bind]. unfold count_quiet.
      assert (R' : recording (add_current_frame cfg (start_recording cfg s) f) = true)
        by (counters).
      assert (B : framebuffer (add_current_frame cfg (start_recording cfg s) f)
                  = framebuffer s) by (counters).
      rewrite R', (score_same_buffer _ _ f B), E. reflexivity.
    + rewrite E. destruct (thresholdframecount s <? thresholdframes cfg); reflexivity.
Qed.

(** With a full frame buffer, index [maxframes-1] is the tail of the
    buffer: the frame appended last. *)
Lemma score_newest (s : State) (f : Frame) :
  1 <= maxframes cfg -> full_buffer cfg s ->
  exists b, newest s = Some b /\ score bgr2gray cfg s f = framediff bgr2gray f b.
Proof.
  intros M F. unfold full_buffer, len in F.
  unfold score, newest, py_getitem.
  rewrite F.
  replace (maxframes cfg - 1 <? 0) with false by (symmetry; apply Z.ltb_ge; lia).
  replace (0 <=? maxframes cfg - 1) with true by (symmetry; apply Z.leb_le; lia).
  replace (maxframes cfg - 1 <? maxframes cfg) with true
    by (symmetry; apply Z.ltb_lt; lia).
  cbn [andb].
  replace (Z.to_nat (maxframes cfg - 1)) with (length (framebuffer s) - 1)%nat by lia.
  destruct (nth_error (framebuffer s) (length (framebuffer s) - 1)) as [b|] eqn:N.
  - exists b. split; reflexivity.
  - apply nth_error_None in N. lia.
Qed.

Lemma rotate_full (s : State) (f : Frame) :
  1 <= maxframes cfg -> full_buffer cfg s ->
  rotate_framebuffer s f = Ok (rotated s f)
  /\ full_buffer cfg (rotated s f)
  /\ newest (rotated s f) = Some f.
Proof.
  intros M F. unfold full_buffer, len in *.
  unfold rotate_framebuffer, rotated, newest.
  destruct (framebuffer s) as [|x rest] eqn:B; cbn [length] in F; [lia|].
  cbn [py_pop0 bind tl set_framebuffer framebuffer].
  split; [reflexivity|]. split.
  - rewrite length_app. cbn [length]. lia.
  - rewrite length_app. cbn [length].
    replace (length rest + 1 - 1)%nat with (length rest) by lia.
    rewrite nth_error_app2 by lia. rewrite Nat.sub_diag. reflexivity.
Qed.

Lemma full_buffer_rules_at (d : Z) (s : State) (f : Frame) :
  full_buffer cfg s -> full_buffer cfg (rules_at cfg d s f).
Proof.
  unfold full_buffer. rewrite framebuffer_rules_at. trivial.
Qed.

Lemma update_scored (s : State) (f : Frame) (d : Z) :
  1 <= maxframes cfg -> full_buffer cfg s -> score bgr2gray cfg s f = Ok d ->
  update bgr2gray cfg s f = Ok (before_flush cfg d s f).
Proof.
  intros M F E. rewrite update_hoisted, E. cbn [bind].
  apply rotate_full; [exact M|]. apply full_buffer_rules_at. exact F.
Qed.

(** [savetofile] on a buffer that is not empty. *)
Lemma savetofile_nonempty (s : State) (i : Input) :
  savedframes s <> [] ->
  savetofile cfg s (disk_free i)
  = if enough_space cfg i then Ok (flushed cfg s)
    else Exit 1 (printed s ++ [HddSpaceBelow (minfreespace cfg)]).
Proof.
  intros NE. unfold savetofile, enough_space, flushed.
  destruct (savedframes s) as [|first rest] eqn:SF; [congruence|].
  destruct (diskcheck cfg); cbn [negb andb orb].
  - destruct (disk_free i / 1024 / 1024 / 1024 <? minfreespace cfg);
      cbn [negb]; [reflexivity|].
    unfold py_getitem. cbn. rewrite SF. reflexivity.
  - unfold py_getitem. cbn. rewrite SF. reflexivity.
Qed.

Lemma flush_guard_nonempty (s : State) :
  1 <= maxsavedframes cfg -> flush_guard cfg s = true -> savedframes s <> [].
Proof.
  unfold flush_guard, len. intros M G E. rewrite E in G. cbn in G.
  apply Z.gtb_lt in G. lia.
Qed.

Lemma flush_if_full_cases (s : State) (i : Input) :
  1 <= maxsavedframes cfg ->
  flush_if_full cfg s (disk_free i)
  = if flush_guard cfg s
    then (if enough_space cfg i then Ok (flushed cfg s)
          else Exit 1 (printed s ++ [HddSpaceBelow (minfreespace cfg)]))
    else Ok s.
Proof.
  intros M. unfold flush_if_full.
  destruct (flush_guard cfg s) eqn:G; [|reflexivity].
  apply savetofile_nonempty. apply flush_guard_nonempty; assumption.
Qed.

Lemma loop_body_cases (s : State) (i : Input) (d : Z) :
  sane cfg -> full_buffer cfg s -> score bgr2gray cfg s (frame i) = Ok d ->
  loop_body bgr2gray cfg s i
  = if flush_guard cfg (before_flush cfg d s (frame i)) && negb (enough_space cfg i)
    then Exit 1 (printed (before_flush cfg d s (frame i))
                 ++ [HddSpaceBelow (minfreespace cfg)])
    else Ok (step_at cfg d s i).
Proof.
  intros (M & _ & MS) F E. unfold loop_body.
  rewrite (update_scored _ M F E). cbn [bind].
  rewrite flush_if_full_cases by exact MS. unfold step_at.
  destruct (flush_guard cfg _), (enough_space cfg i); reflexivity.
Qed.

Lemma loop_body_scored (s : State) (i : Input) (d : Z) :
  sane cfg -> full_buffer cfg s -> score bgr2gray cfg s (frame i) = Ok d ->
  enough_space cfg i = true ->
  loop_body bgr2gray cfg s i = Ok (step_at cfg d s i).
Proof.
  intros S F E SP. rewrite (loop_body_cases _ S F E), SP.
  rewrite andb_false_r. reflexivity.
Qed.

Lemma loop_body_inv (s s' : State) (i : Input) :
  sane cfg -> full_buffer cfg s -> loop_body bgr2gray cfg s i = Ok s' ->
  exists d, score bgr2gray cfg s (frame i) = Ok d /\ s' = step_at cfg d s i.
Proof.
  intros S F L.
  destruct (score bgr2gray cfg s (frame i)) as [d|e|c out] eqn:E.
  - exists d. split; [reflexivity|].
    rewrite (loop_body_cases _ S F E) in L.
    destruct (_ && _); congruence.
  - unfold loop_body in L. rewrite update_hoisted, E in L. discriminate.
  - unfold loop_body in L. rewrite update_hoisted, E in L. discriminate.
Qed.

(** The flush and the rotation leave the counters alone. *)
Lemma step_at_counters (d : Z) (s : State) (i : Input) :
  let r := rules_at cfg d s (frame i) in
  let s' := step_at cfg d s i in
  recording s' = recording r
  /\ quietlen s' = quietlen r
  /\ cooldown s' = cooldown r
  /\ thresholdframecount s' = thresholdframecount r
  /\ has_started s' = has_started r.
Proof.
  intros r s'. subst r s'. unfold step_at, before_flush.
  generalize (rules_at cfg d s (frame i)). intros r.
  destruct (flush_guard cfg (rotated r (frame i)));
    [|unfold rotated, has_started; fields; repeat split].
  unfold flushed, rotated. fields.
  destruct (savedframes r) as [|first rest];
    [unfold has_started; fields; repeat split|].
  unfold has_started. fields.
  rewrite existsb_app. cbn [existsb orb]. rewrite orb_false_r. repeat split.
Qed.

Lemma step_at_buffer (d : Z) (s : State) (i : Input) :
  1 <= maxframes cfg -> full_buffer cfg s ->
  full_buffer cfg (step_at cfg d s i)
  /\ newest (step_at cfg d s i) = Some (frame i).
Proof.
  intros M F.
  destruct (rotate_full (frame i) M (full_buffer_rules_at d (frame i) F))
    as (_ & F' & N').
  unfold step_at, before_flush.
  destruct (flush_guard cfg _); [|split; assumption].
  unfold flushed.
  destruct (savedframes _); [split; assumption|].
  unfold full_buffer, newest in *. fields. split; assumption.
Qed.

End LoopFacts.

(** ** Reachable states *)

Section Reachability.

Variable bgr2gray : Pixel -> byte.
Variable cfg : Config.

Lemma main_loop_reachable (inputs : list Input) :
  forall s s', reachable bgr2gray cfg s ->
               main_loop bgr2gray cfg s inputs = Ok s' ->
               reachable bgr2gray cfg s'.
Proof.
  induction inputs as [|i rest IH]; intros s s' R L; cbn [main_loop] in L.
  - congruence.
  - destruct (loop_body bgr2gray cfg s i) as [s1| |] eqn:B; cbn [bind] in L;
      try discriminate.
    apply (IH s1 s'); [|exact L].
    apply (reach_step i R B).
Qed.

Lemma reachable_full_buffer (s : State) :
  sane cfg -> reachable bgr2gray cfg s -> full_buffer cfg s.
Proof.
  intros S R. induction R as [frames L | s s' i R IH B].
  - exact L.
  - destruct (@loop_body_inv bgr2gray cfg s s' i S IH B) as (d & _ & ->).
    apply step_at_buffer; [apply S | exact IH].
Qed.

End Reachability.

Lemma script_reachable (g : Pixel -> byte) (c : Config) (camera : list Frame)
    (inputs : list Input) (s : State) :
  0 <= maxframes c <= len camera ->
  script g c camera inputs = Ok s ->
  reachable g (clamp_thresholdframes c) s.
Proof.
  intros L R. unfold script in R.
  apply (main_loop_reachable inputs) with (2 := R).
  apply reach_init. unfold len in *. rewrite length_firstn. cbn. lia.
Qed.

(** ** The baseline of the score *)

(** C1, counterexample: with a buffer of two frames, black the older and dim
    the newer, a dim frame is scored against the dim one (score 0), not
    against the black one at the head of the buffer (score 64). *)
Lemma score_not_against_oldest :
  let s := init_state Sample.pair [Sample.black; Sample.dim] in
  reachable Sample.luma Sample.pair s
  /\ oldest s = Some Sample.black
  /\ score Sample.luma Sample.pair s Sample.dim
     <> framediff Sample.luma Sample.dim Sample.black.
Proof.
  intros s. split; [|split].
  - apply reach_init. reflexivity.
  - reflexivity.
  - vm_compute. discriminate.
Qed.

(** C1, as the code has it: with the frame buffer full, every iteration
    consumes one score, [framediff] of the new frame against
    [framebuffer[maxframes-1]], the newest frame of the buffer (its tail,
    where [append] puts frames), not the oldest (its head, which [pop(0)]
    removes); the two coincide when [maxframes] is 1.  The baseline slides:
    after an iteration the newest buffered frame is the frame of that
    iteration. *)
Theorem score_against_newest (g : Pixel -> byte) (cfg : Config) (s : State)
    (i : Input) :
  1 <= maxframes cfg -> full_buffer cfg s ->
  loop_body g cfg s i
  = (d <- score g cfg s (frame i) ;;
     s' <- rotate_framebuffer (rules_at cfg d s (frame i)) (frame i) ;;
     flush_if_full cfg s' (disk_free i))
  /\ (exists b, newest s = Some b
                /\ score g cfg s (frame i) = framediff g (frame i) b)
  /\ (maxframes cfg = 1 -> oldest s = newest s)
  /\ (forall s', loop_body g cfg s i = Ok s' -> newest s' = Some (frame i)).
Proof.
  intros M F.
  assert (H : loop_body g cfg s i
              = (d <- score g cfg s (frame i) ;;
                 s' <- rotate_framebuffer (rules_at cfg d s (frame i)) (frame i) ;;
                 flush_if_full cfg s' (disk_free i))).
  { unfold loop_body. rewrite update_hoisted.
    destruct (score g cfg s (frame i)); reflexivity. }
  split; [exact H|]. split; [apply score_newest; assumption|]. split.
  - intros M1. unfold oldest, newest. unfold full_buffer, len in F.
    destruct (framebuffer s) as [|x [|y rest]]; cbn [length] in F; try lia.
    reflexivity.
  - intros s' L. rewrite H in L.
    destruct (score g cfg s (frame i)) as [d| |]; cbn [bind] in L;
      try discriminate.
    destruct (rotate_full (frame i) M (full_buffer_rules_at d (frame i) F))
      as (RO & _ & N).
    rewrite RO in L. cbn [bind] in L. unfold flush_if_full in L.
    destruct (flush_guard cfg _); [|congruence].
    unfold savetofile in L.
    destruct (diskcheck cfg && _); [discriminate|].
    destruct (py_getitem _ 0); cbn [bind] in L; try discriminate.
    injection L as <-. exact N.
Qed.

Lemma score_against_newest_witness :
  let s := init_state Sample.pair [Sample.black; Sample.dim] in
  let i := Sample.see Sample.dim in
  1 <= maxframes Sample.pair
  /\ full_buffer Sample.pair s
  /\ (exists b, newest s = Some b
                /\ score Sample.luma Sample.pair s (frame i)
                   = framediff Sample.luma (frame i) b).
Proof.
  intros s i.
  assert (M : 1 <= maxframes Sample.pair) by (cbn; lia).
  assert (F : full_buffer Sample.pair s) by reflexivity.
  split; [exact M|]. split; [exact F|].
  apply (score_against_newest Sample.luma i M F).
Defined.

(** ** The pre-roll *)

Lemma starts_inv (g : Pixel -> byte) (cfg : Config) (s : State) (f : Frame) :
  starts g cfg s f = true ->
  exists d, score g cfg s f = Ok d
            /\ recording s = false
            /\ start_guard cfg (before_start cfg d s) = true.
Proof.
  unfold starts. intros H.
  destruct (recording s) eqn:R.
  - unfold check_thresholdframes in H. rewrite R in H. cbn in H.
    unfold start_guard in H. rewrite R in H. discriminate.
  - destruct (score g cfg s f) as [d|e|c out] eqn:E.
    + exists d. erewrite check_thresholdframes_scored in H by exact E.
      repeat split. exact H.
    + unfold check_thresholdframes in H. rewrite R, E in H. cbn in H.
      destruct (thresholdframecount s <? thresholdframes cfg); discriminate.
    + unfold check_thresholdframes in H. rewrite R, E in H. cbn in H.
      destruct (thresholdframecount s <? thresholdframes cfg); discriminate.
Qed.

Lemma savedframes_on_start (cfg : Config) (d : Z) (s : State) (f : Frame) :
  start_guard cfg (before_start cfg d s) = true ->
  savedframes (before_flush cfg d s f)
  = savedframes s ++ framebuffer s
    ++ (if quietlen s <? maxframes cfg then [f] else []).
Proof.
  intros G. counters; rewrite <- ?app_assoc, ?app_nil_r; reflexivity.
Qed.

(** C2, counterexample: after a first recording that started and stopped
    (three frames pending, nothing flushed), a loud frame starts a second
    recording; [savedframes] is not empty at that moment, and its first
    [maxframes] entries afterwards are not the contents of the frame
    buffer. *)
Lemma second_start_buffer_not_empty :
  let s := Sample.after_first_recording in
  let f := Sample.white in
  reachable Sample.luma Sample.small s
  /\ starts Sample.luma Sample.small s f = true
  /\ savedframes s <> []
  /\ (forall s', update Sample.luma Sample.small s f = Ok s' ->
                 firstn (Z.to_nat (maxframes Sample.small)) (savedframes s')
                 <> framebuffer s).
Proof.
  intros s f. split; [|split; [|split]].
  - apply (@script_reachable Sample.luma Sample.small [Sample.black]
             [Sample.see Sample.dim; Sample.see Sample.dim]).
    + vm_compute. split; discriminate.
    + vm_compute. reflexivity.
  - vm_compute. reflexivity.
  - assert (N : length (savedframes s) = 3%nat) by (vm_compute; reflexivity).
    intros E. rewrite E in N. discriminate.
  - intros s' U E.
    assert (U' : update Sample.luma Sample.small s f
                 = Ok (before_flush Sample.small 956 s f)).
    { apply update_scored.
      - vm_compute. discriminate.
      - vm_compute. reflexivity.
      - vm_compute. reflexivity. }
    rewrite U' in U. injection U as <-.
    set (head_intensity := fun l : list Frame =>
           match l with
           | x :: _ => byte_val (Sample.luma (pixel x 0 0))
           | [] => 0
           end).
    assert (A : head_intensity
                  (firstn (Z.to_nat (maxframes Sample.small))
                     (savedframes (before_flush Sample.small 956 s f))) = 0)
      by (vm_compute; reflexivity).
    assert (B : head_intensity (framebuffer s) = 16)
      by (vm_compute; reflexivity).
    rewrite E, B in A. discriminate.
Qed.

(** C2, as the code has it: when the start guard holds, the contents of the
    frame buffer are appended, oldest first and in order, to whatever
    [savedframes] already holds, followed by the new frame if [quietlen] is
    below [maxframes].  The [maxframes] entries after the frames that were
    pending equal the frame buffer as it was; they are the first [maxframes]
    entries when nothing was pending. *)
Theorem preroll_appended (g : Pixel -> byte) (cfg : Config) (s : State)
    (f : Frame) :
  1 <= maxframes cfg -> full_buffer cfg s ->
  starts g cfg s f = true ->
  exists s',
    update g cfg s f = Ok s'
    /\ savedframes s'
       = savedframes s ++ framebuffer s
         ++ (if quietlen s <? maxframes cfg then [f] else [])
    /\ firstn (Z.to_nat (maxframes cfg))
              (skipn (length (savedframes s)) (savedframes s'))
       = framebuffer s
    /\ (savedframes s = [] ->
        firstn (Z.to_nat (maxframes cfg)) (savedframes s') = framebuffer s).
Proof.
  intros M F ST.
  destruct (starts_inv _ _ _ _ ST) as (d & E & _ & G).
  exists (before_flush cfg d s f).
  pose proof (@savedframes_on_start cfg d s f G) as SF.
  assert (L : Z.to_nat (maxframes cfg) = length (framebuffer s)).
  { unfold full_buffer, len in F. lia. }
  split; [apply update_scored; assumption|].
  split; [exact SF|]. split.
  - rewrite SF, L, skipn_app, skipn_all, Nat.sub_diag. cbn [skipn app].
    rewrite firstn_app, firstn_all, Nat.sub_diag. cbn [firstn].
    apply app_nil_r.
  - intros E0. rewrite SF, E0, L. cbn [app].
    rewrite firstn_app, firstn_all, Nat.sub_diag. cbn [firstn].
    apply app_nil_r.
Qed.

Lemma preroll_appended_witness :
  let s := init_state Sample.small [Sample.black] in
  let f := Sample.dim in
  1 <= maxframes Sample.small
  /\ full_buffer Sample.small s
  /\ starts Sample.luma Sample.small s f = true
  /\ exists s', update Sample.luma Sample.small s f = Ok s'
                /\ savedframes s' = [Sample.black; Sample.dim].
Proof.
  intros s f.
  assert (M : 1 <= maxframes Sample.small) by (vm_compute; discriminate).
  assert (F : full_buffer Sample.small s) by (vm_compute; reflexivity).
  assert (ST : starts Sample.luma Sample.small s f = true)
    by (vm_compute; reflexivity).
  split; [exact M|]. split; [exact F|]. split; [exact ST|].
  destruct (@preroll_appended Sample.luma Sample.small s f M F ST)
    as (s' & U & SF & _).
  exists s'. split; [exact U|]. exact SF.
Defined.

(** ** The flush *)

Lemma flush_guard_spec (cfg : Config) (s : State) :
  flush_guard cfg s = true <-> maxsavedframes cfg <= len (savedframes s).
Proof.
  unfold flush_guard. rewrite Z.gtb_ltb, Z.ltb_lt. lia.
Qed.

(** C7: the size check at the end of an iteration calls [savetofile] exactly
    when the length of [savedframes] has reached [maxsavedframes], whatever
    [recording] is.  Below the bound the iteration ends with the buffer as
    it is; at the bound, and with the free-space test passing, the buffer is
    written out as one video and left empty, [recording] untouched; at the
    bound with too little free space [savetofile] ends the process with
    status 1. *)
Theorem flush_exactly_when_full (g : Pixel -> byte) (cfg : Config) (s : State)
    (i : Input) (d : Z) :
  sane cfg -> full_buffer cfg s -> score g cfg s (frame i) = Ok d ->
  let s7 := before_flush cfg d s (frame i) in
  update g cfg s (frame i) = Ok s7
  /\ (len (savedframes s7) < maxsavedframes cfg ->
      flush_guard cfg s7 = false /\ loop_body g cfg s i = Ok s7)
  /\ (maxsavedframes cfg <= len (savedframes s7) ->
      flush_guard cfg s7 = true
      /\ loop_body g cfg s i = savetofile cfg s7 (disk_free i)
      /\ (enough_space cfg i = true ->
          exists first rest,
            savedframes s7 = first :: rest
            /\ loop_body g cfg s i = Ok (flushed cfg s7)
            /\ savedframes (flushed cfg s7) = []
            /\ videos (flushed cfg s7)
               = videos s7 ++ [mkVideo (width first, height first) (savedframes s7)]
            /\ recording (flushed cfg s7) = recording s7)
      /\ (enough_space cfg i = false ->
          loop_body g cfg s i
          = Exit 1 (printed s7 ++ [HddSpaceBelow (minfreespace cfg)]))).
Proof.
  intros S F E s7.
  pose proof (@loop_body_cases g cfg s i d S F E) as C. fold s7 in C.
  destruct S as (M & _ & MS).
  assert (U : update g cfg s (frame i) = Ok s7)
    by (apply update_scored; assumption).
  split; [exact U|]. split.
  - intros L.
    assert (G : flush_guard cfg s7 = false).
    { destruct (flush_guard cfg s7) eqn:G; [|reflexivity].
      apply flush_guard_spec in G. lia. }
    split; [exact G|].
    rewrite C. unfold step_at. fold s7. rewrite G. reflexivity.
  - intros L.
    assert (G : flush_guard cfg s7 = true) by (apply flush_guard_spec; exact L).
    pose proof (@flush_guard_nonempty cfg s7 MS G) as NE.
    split; [exact G|]. split; [|split].
    + unfold loop_body. rewrite U. cbn [bind]. unfold flush_if_full.
      rewrite G. reflexivity.
    + intros SP. rewrite C, G, SP. cbn [negb andb].
      unfold step_at. fold s7. rewrite G.
      destruct (savedframes s7) as [|first rest] eqn:SF; [congruence|].
      exists first, rest. split; [reflexivity|]. split; [reflexivity|].
      unfold flushed. rewrite SF. fields. repeat split.
    + intros SP. rewrite C, G, SP. reflexivity.
Qed.

Lemma flush_exactly_when_full_witness :
  let s := init_state Sample.tiny [Sample.black] in
  let i := Sample.see Sample.dim in
  let s7 := before_flush Sample.tiny 64 s (frame i) in
  sane Sample.tiny
  /\ full_buffer Sample.tiny s
  /\ score Sample.luma Sample.tiny s (frame i) = Ok 64
  /\ maxsavedframes Sample.tiny <= len (savedframes s7)
  /\ loop_body Sample.luma Sample.tiny s i = savetofile Sample.tiny s7 (disk_free i).
Proof.
  intros s i s7.
  assert (S : sane Sample.tiny) by (vm_compute; repeat split; discriminate).
  assert (F : full_buffer Sample.tiny s) by (vm_compute; reflexivity).
  assert (E : score Sample.luma Sample.tiny s (frame i) = Ok 64)
    by (vm_compute; reflexivity).
  assert (L : maxsavedframes Sample.tiny <= len (savedframes s7))
    by (vm_compute; discriminate).
  split; [exact S|]. split; [exact F|]. split; [exact E|]. split; [exact L|].
  destruct (@flush_exactly_when_full Sample.luma Sample.tiny s i 64 S F E)
    as (_ & _ & Full).
  destruct (Full L) as (_ & Call & _). exact Call.
Defined.

(** C8 on the code: with nothing recorded, [savetofile] does not return.
    Where the free-space test passes it raises [IndexError] at
    [savedframes[0]], and so does the SIGINT handler, which calls it without
    looking at the buffer; where the test fails it exits with status 1.  The
    size check of the loop, for [maxsavedframes >= 1], never calls it on an
    empty buffer. *)
Theorem savetofile_empty_fails (cfg : Config) (s : State) (i : Input) :
  savedframes s = [] ->
  let failure : outcome State :=
    if enough_space cfg i then Raise IndexError
    else Exit 1 (printed s ++ [HddSpaceBelow (minfreespace cfg)]) in
  savetofile cfg s (disk_free i) = failure
  /\ signal_handler cfg s (disk_free i) = failure
  /\ (1 <= maxsavedframes cfg -> flush_if_full cfg s (disk_free i) = Ok s).
Proof.
  intros SF failure.
  assert (SV : savetofile cfg s (disk_free i) = failure).
  { unfold savetofile, failure, enough_space. rewrite SF.
    destruct (diskcheck cfg); cbn [negb andb orb].
    - destruct (disk_free i / 1024 / 1024 / 1024 <? minfreespace cfg);
        reflexivity.
    - reflexivity. }
  split; [exact SV|]. split.
  - unfold signal_handler. rewrite SV. unfold failure.
    destruct (enough_space cfg i); reflexivity.
  - intros MS. unfold flush_if_full.
    destruct (flush_guard cfg s) eqn:G; [|reflexivity].
    apply flush_guard_spec in G. rewrite SF in G. cbn in G. lia.
Qed.

Lemma savetofile_empty_fails_witness :
  let s := init_state Sample.small [Sample.black] in
  let i := Sample.see Sample.dim in
  savedframes s = []
  /\ savetofile Sample.small s (disk_free i) = Raise IndexError
  /\ signal_handler Sample.small s (disk_free i) = Raise IndexError.
Proof.
  intros s i.
  assert (SF : savedframes s = []) by reflexivity.
  destruct (@savetofile_empty_fails Sample.small s i SF) as (A & B & _).
  split; [exact SF|]. split; [exact A | exact B].
Defined.

(** ** Runs of the loop *)

Lemma last_cons (A : Type) (a d : A) (l : list A) :
  last (a :: l) d = last l a.
Proof.
  revert a d. induction l as [|x l IH]; intros a d; [reflexivity|].
  change (last (a :: x :: l) d) with (last (x :: l) d).
  rewrite (IH x d), (IH x a). reflexivity.
Qed.

Lemma scores_snoc (g : Pixel -> byte) (fs : list Frame) (f b : Frame) :
  scores g b (fs ++ [f]) = scores g b fs ++ [framediff g f (last fs b)].
Proof.
  revert b. induction fs as [|x fs IH]; intros b; [reflexivity|].
  cbn [app scores]. rewrite IH, last_cons. reflexivity.
Qed.

Lemma forallb_snoc (A : Type) (p : A -> bool) (l : list A) (x : A) :
  forallb p (l ++ [x]) = true -> forallb p l = true /\ p x = true.
Proof.
  rewrite forallb_app. cbn [forallb]. rewrite andb_true_r.
  apply andb_true_iff.
Qed.

Lemma main_loop_snoc (g : Pixel -> byte) (cfg : Config) (inputs : list Input)
    (i : Input) :
  forall s s1, main_loop g cfg s inputs = Ok s1 ->
               main_loop g cfg s (inputs ++ [i]) = loop_body g cfg s1 i.
Proof.
  induction inputs as [|x rest IH]; intros s s1 R; cbn [main_loop app] in *.
  - injection R as <-. destruct (loop_body g cfg s i); reflexivity.
  - destruct (loop_body g cfg s x) as [s2| |]; cbn [bind] in *;
      try discriminate.
    apply IH. exact R.
Qed.

(** A scored iteration with room on the disk, seen from the state it
    starts in. *)
Lemma scored_iteration (g : Pixel -> byte) (cfg : Config) (s : State)
    (b : Frame) (i : Input) (d : Z) :
  sane cfg -> full_buffer cfg s -> newest s = Some b ->
  framediff g (frame i) b = Ok d -> enough_space cfg i = true ->
  score g cfg s (frame i) = Ok d
  /\ loop_body g cfg s i = Ok (step_at cfg d s i)
  /\ full_buffer cfg (step_at cfg d s i)
  /\ newest (step_at cfg d s i) = Some (frame i).
Proof.
  intros S F N D SP.
  assert (E : score g cfg s (frame i) = Ok d).
  { destruct (@score_newest g cfg s (frame i) (proj1 S) F) as (b' & N' & E).
    rewrite E. congruence. }
  split; [exact E|]. split; [apply loop_body_scored; assumption|].
  apply step_at_buffer; [apply S | exact F].
Qed.

(** ** Stopping *)

(** One quiet iteration while recording. *)
Lemma recording_quiet_rules (cfg : Config) (d : Z) (s : State) (f : Frame) :
  1 <= maxframes cfg -> recording s = true -> d < threshold cfg ->
  0 <= quietlen s < maxframes cfg ->
  (recording (before_stop cfg d s f) = true
   /\ quietlen (before_stop cfg d s f) = quietlen s + 1
   /\ quietlen (rules_at cfg d s f) = quietlen s + 1)
  /\ (quietlen s + 1 < maxframes cfg ->
      stop_guard cfg (before_stop cfg d s f) = false
      /\ recording (rules_at cfg d s f) = true
      /\ cooldown (rules_at cfg d s f) = cooldown s)
  /\ (quietlen s + 1 = maxframes cfg ->
      stop_guard cfg (before_stop cfg d s f) = true
      /\ recording (stop_recording cfg (before_stop cfg d s f)) = false
      /\ cooldown (stop_recording cfg (before_stop cfg d s f)) = 0
      /\ recording (rules_at cfg d s f) = false
      /\ cooldown (rules_at cfg d s f) = 1).
Proof.
  intros M R D Q.
  counters; repeat split; intros; try reflexivity; try lia; try congruence.
Qed.

(** Fewer than [maxframes] quiet iterations in a row leave the recording
    running and are counted by [quietlen]. *)
Lemma quiet_prefixes (g : Pixel -> byte) (cfg : Config) :
  sane cfg ->
  forall (inputs : list Input) (s : State) (b : Frame),
    full_buffer cfg s -> newest s = Some b ->
    recording s = true -> 0 <= quietlen s ->
    quietlen s + len inputs < maxframes cfg ->
    forallb (quiet cfg) (scores g b (map frame inputs)) = true ->
    forallb (enough_space cfg) inputs = true ->
    forall n, (n <= length inputs)%nat ->
      exists sn,
        main_loop g cfg s (firstn n inputs) = Ok sn
        /\ recording sn = true
        /\ quietlen sn = quietlen s + Z.of_nat n
        /\ cooldown sn = cooldown s
        /\ full_buffer cfg sn
        /\ newest sn = Some (last (map frame (firstn n inputs)) b).
Proof.
  intros S. induction inputs as [|i rest IH]; intros s b F N R Q0 Q A SP n Ln.
  - destruct n; [|cbn in Ln; lia]. exists s. cbn.
    repeat split; try assumption. lia.
  - destruct n as [|n].
    { exists s. cbn. repeat split; try assumption. lia. }
    cbn [map scores forallb] in A, SP.
    apply andb_true_iff in A. destruct A as (A1 & A2).
    apply andb_true_iff in SP. destruct SP as (SP1 & SP2).
    unfold quiet in A1.
    destruct (framediff g (frame i) b) as [d| |] eqn:D; try discriminate.
    apply Z.ltb_lt in A1.
    destruct (@scored_iteration g cfg s b i d S F N D SP1) as (E & L & F' & N').
    unfold len in Q. cbn [length] in Q, Ln.
    destruct (@recording_quiet_rules cfg d s (frame i) (proj1 S) R A1)
      as ((_ & _ & Q1) & Keep & _); [lia|].
    destruct Keep as (_ & R1 & C1); [lia|].
    destruct (step_at_counters cfg d s i) as (R2 & Q2 & C2 & _).
    destruct (IH (step_at cfg d s i) (frame i) F' N') with (n := n)
      as (sn & Run & Rn & Qn & Cn & Fn & Nn);
      try assumption; try congruence; try lia.
    { unfold len. lia. }
    exists sn. cbn [firstn main_loop map]. rewrite L. cbn [bind].
    rewrite last_cons.
    repeat split; try assumption; try congruence; lia.
Qed.

(** One loud iteration while recording: the stop guard fails and the quiet
    count starts again from 0. *)
Lemma loud_tick_resets_quiet (cfg : Config) (d : Z) (s : State) (f : Frame) :
  1 <= maxframes cfg -> recording s = true -> threshold cfg <= d ->
  0 <= quietlen s < maxframes cfg ->
  stop_guard cfg (before_stop cfg d s f) = false
  /\ recording (rules_at cfg d s f) = true
  /\ quietlen (rules_at cfg d s f) = 0.
Proof.
  intros M R D Q.
  counters; repeat split; intros; try reflexivity; try lia; try congruence.
Qed.

(** C5: while a recording runs, [quietlen] counts the quiet iterations since
    the last loud one, and the recording stops on exactly the iteration at
    which that count reaches [maxframes].  From any recording state (where
    [0 <= quietlen < maxframes]):
    - the stop guard [quietlen > maxframes - 1] holds in an iteration exactly
      when its score is below the threshold and the count reaches
      [maxframes] with it;
    - a loud iteration does not stop the recording and puts the count back
      to 0, so that the quiet iterations before it no longer count: after
      it, up to [maxframes - 1] quiet iterations leave the recording running;
    - quiet iterations that bring the count up to [maxframes - 1] leave the
      recording running, the count growing by one with each;
    - the next quiet iteration brings the count to [maxframes]: the stop
      guard holds, and the stop sets [recording] to false and [cooldown] to
      0.  (The cooldown step of the same iteration then advances [cooldown]
      to 1.) *)
Theorem stop_after_maxframes_quiet (g : Pixel -> byte) (cfg : Config)
    (s : State) (b : Frame) (inputs : list Input) (i : Input) :
  sane cfg -> full_buffer cfg s -> newest s = Some b ->
  recording s = true -> 0 <= quietlen s < maxframes cfg ->
  quietlen s + len inputs = maxframes cfg - 1 ->
  forallb (quiet cfg) (scores g b (map frame (inputs ++ [i]))) = true ->
  forallb (enough_space cfg) (inputs ++ [i]) = true ->
  (forall d f,
     stop_guard cfg (before_stop cfg d s f) = true
     <-> (d < threshold cfg /\ quietlen s + 1 = maxframes cfg))
  /\ (forall (i0 : Input) (quiets : list Input),
        forallb (loud cfg) (scores g b [frame i0]) = true ->
        forallb (quiet cfg) (scores g (frame i0) (map frame quiets)) = true ->
        forallb (enough_space cfg) (i0 :: quiets) = true ->
        len quiets < maxframes cfg ->
        exists s0 s',
          loop_body g cfg s i0 = Ok s0
          /\ recording s0 = true /\ quietlen s0 = 0
          /\ main_loop g cfg s (i0 :: quiets) = Ok s'
          /\ recording s' = true /\ quietlen s' = len quiets)
  /\ (forall n, (n <= length inputs)%nat ->
        exists sn, main_loop g cfg s (firstn n inputs) = Ok sn
                   /\ recording sn = true
                   /\ quietlen sn = quietlen s + Z.of_nat n)
  /\ exists sl d,
       main_loop g cfg s inputs = Ok sl
       /\ score g cfg sl (frame i) = Ok d
       /\ d < threshold cfg
       /\ quietlen (before_stop cfg d sl (frame i)) = maxframes cfg
       /\ stop_guard cfg (before_stop cfg d sl (frame i)) = true
       /\ recording (stop_recording cfg (before_stop cfg d sl (frame i))) = false
       /\ cooldown (stop_recording cfg (before_stop cfg d sl (frame i))) = 0
       /\ exists s',
            main_loop g cfg s (inputs ++ [i]) = Ok s'
            /\ recording s' = false
            /\ quietlen s' = maxframes cfg
            /\ cooldown s' = 1.
Proof.
  intros S F N R Q0 Ln A SP.
  rewrite map_app in A. cbn [map] in A. rewrite scores_snoc in A.
  apply forallb_snoc in A. destruct A as (A & Alast).
  apply forallb_snoc in SP. destruct SP as (SP & SPlast).
  assert (P : forall n, (n <= length inputs)%nat ->
     exists sn,
       main_loop g cfg s (firstn n inputs) = Ok sn
       /\ recording sn = true
       /\ quietlen sn = quietlen s + Z.of_nat n
       /\ cooldown sn = cooldown s
       /\ full_buffer cfg sn
       /\ newest sn = Some (last (map frame (firstn n inputs)) b)).
  { apply quiet_prefixes; try assumption; lia. }
  split; [|split; [|split]].
  - intros d f. destruct (Z.lt_ge_cases d (threshold cfg)) as [D|D].
    + destruct (@recording_quiet_rules cfg d s f (proj1 S) R D Q0)
        as (_ & Keep & Stop).
      split.
      * intros G. split; [exact D|].
        destruct (Z.eq_dec (quietlen s + 1) (maxframes cfg)) as [E|E];
          [exact E|].
        destruct Keep as (G' & _); [lia | congruence].
      * intros (_ & E). apply Stop. exact E.
    + destruct (@loud_tick_resets_quiet cfg d s f (proj1 S) R D Q0) as (G & _).
      split; [congruence | lia].
  - intros i0 quiets L0 Aq SPq Lq.
    cbn [scores forallb] in L0. rewrite andb_true_r in L0.
    unfold loud in L0.
    destruct (framediff g (frame i0) b) as [d0| |] eqn:D0; try discriminate.
    apply Z.geb_le in L0.
    cbn [forallb] in SPq. apply andb_true_iff in SPq.
    destruct SPq as (SP0 & SPq).
    destruct (@scored_iteration g cfg s b i0 d0 S F N D0 SP0)
      as (_ & L & F0 & N0).
    destruct (@loud_tick_resets_quiet cfg d0 s (frame i0) (proj1 S) R L0 Q0)
      as (_ & R1 & Q1).
    destruct (step_at_counters cfg d0 s i0) as (R2 & Q2 & _).
    assert (R0' : recording (step_at cfg d0 s i0) = true) by congruence.
    assert (Q0' : quietlen (step_at cfg d0 s i0) = 0) by congruence.
    destruct (@quiet_prefixes g cfg S quiets (step_at cfg d0 s i0) (frame i0)
                F0 N0 R0') with (n := length quiets)
      as (s' & Run & Rn & Qn & _); try assumption; try lia.
    rewrite firstn_all in Run.
    exists (step_at cfg d0 s i0), s'.
    split; [exact L|]. split; [exact R0'|]. split; [exact Q0'|].
    split; [cbn [main_loop]; rewrite L; exact Run|].
    split; [exact Rn|]. unfold len. lia.
  - intros n Hn. destruct (P n Hn) as (sn & Run & Rn & Qn & _).
    exists sn. repeat split; assumption.
  - destruct (P (length inputs) (Nat.le_refl _))
      as (sl & Run & Rl & Ql & _ & Fl & Nl).
    rewrite firstn_all in Run, Nl.
    unfold quiet in Alast.
    destruct (framediff g (frame i) (last (map frame inputs) b)) as [d| |] eqn:D;
      try discriminate.
    apply Z.ltb_lt in Alast.
    destruct (@scored_iteration g cfg sl _ i d S Fl Nl D SPlast) as (E & L & _).
    unfold len in Ln.
    destruct (@recording_quiet_rules cfg d sl (frame i) (proj1 S) Rl Alast)
      as ((_ & Qb & Qr) & _ & Stop); [lia|].
    destruct Stop as (G & R5 & C5 & R6 & C6); [lia|].
    destruct (step_at_counters cfg d sl i) as (R7 & Q7 & C7 & _).
    exists sl, d.
    split; [exact Run|]. split; [exact E|]. split; [exact Alast|].
    split; [lia|]. split; [exact G|]. split; [exact R5|]. split; [exact C5|].
    exists (step_at cfg d sl i).
    split; [erewrite main_loop_snoc by exact Run; exact L|].
    split; [congruence|]. split; [lia | congruence].
Qed.

Lemma stop_after_maxframes_quiet_witness :
  let s := Sample.state_of
             (script Sample.luma Sample.pair [Sample.black; Sample.black]
                [Sample.see Sample.dim; Sample.see Sample.white]) in
  let inputs := [Sample.see Sample.white] in
  let i := Sample.see Sample.white in
  sane Sample.pair
  /\ reachable Sample.luma Sample.pair s
  /\ recording s = true
  /\ 0 <= quietlen s < maxframes Sample.pair
  /\ quietlen s + len inputs = maxframes Sample.pair - 1
  /\ forallb (quiet Sample.pair)
       (scores Sample.luma Sample.white (map frame (inputs ++ [i]))) = true
  /\ exists s', main_loop Sample.luma Sample.pair s (inputs ++ [i]) = Ok s'
                /\ recording s' = false
                /\ quietlen s' = maxframes Sample.pair
                /\ cooldown s' = 1.
Proof.
  intros s inputs i.
  assert (S : sane Sample.pair) by (vm_compute; repeat split; discriminate).
  assert (Re : reachable Sample.luma Sample.pair s).
  { apply (@script_reachable Sample.luma Sample.pair
             [Sample.black; Sample.black]
             [Sample.see Sample.dim; Sample.see Sample.white]).
    - vm_compute. split; discriminate.
    - vm_compute. reflexivity. }
  assert (F : full_buffer Sample.pair s) by (vm_compute; reflexivity).
  assert (N : newest s = Some Sample.white) by (vm_compute; reflexivity).
  assert (R : recording s = true) by (vm_compute; reflexivity).
  assert (Q : 0 <= quietlen s < maxframes Sample.pair)
    by (vm_compute; split; [discriminate | reflexivity]).
  assert (L : quietlen s + len inputs = maxframes Sample.pair - 1)
    by (vm_compute; reflexivity).
  assert (A : forallb (quiet Sample.pair)
                (scores Sample.luma Sample.white (map frame (inputs ++ [i])))
              = true) by (vm_compute; reflexivity).
  assert (SP : forallb (enough_space Sample.pair) (inputs ++ [i]) = true)
    by (vm_compute; reflexivity).
  destruct (@stop_after_maxframes_quiet Sample.luma Sample.pair s
              Sample.white inputs i S F N R Q L A SP)
    as (_ & _ & _ & sl & d & _ & _ & _ & _ & _ & _ & _ & s' & Run & Rs & Qs & Cs).
  split; [exact S|]. split; [exact Re|]. split; [exact R|]. split; [exact Q|].
  split; [exact L|]. split; [exact A|].
  exists s'. split; [exact Run|]. split; [exact Rs|]. split; [exact Qs | exact Cs].
Defined.

(** ** Starting *)

Lemma clamp_sane (c : Config) :
  1 <= maxframes c -> 1 <= maxsavedframes c -> sane (clamp_thresholdframes c).
Proof.
  intros M MS. unfold sane, clamp_thresholdframes.
  cbn [maxframes thresholdframes maxsavedframes].
  destruct (thresholdframes c <? 1) eqn:T; [|apply Z.ltb_ge in T]; lia.
Qed.

Lemma starts_scored (g : Pixel -> byte) (cfg : Config) (s : State) (f : Frame)
    (d : Z) :
  score g cfg s f = Ok d ->
  starts g cfg s f = start_guard cfg (before_start cfg d s).
Proof.
  intros E. unfold starts.
  erewrite check_thresholdframes_scored by exact E. reflexivity.
Qed.

(** One loud iteration while idle and out of the cooldown. *)
Lemma idle_loud_rules (cfg : Config) (d : Z) (s : State) (f : Frame) :
  1 <= maxframes cfg -> recording s = false -> threshold cfg <= d ->
  maxframes cfg <= cooldown s ->
  0 <= thresholdframecount s < thresholdframes cfg ->
  (thresholdframecount s + 1 < thresholdframes cfg ->
     start_guard cfg (before_start cfg d s) = false
     /\ recording (rules_at cfg d s f) = false
     /\ thresholdframecount (rules_at cfg d s f) = thresholdframecount s + 1
     /\ cooldown (rules_at cfg d s f) = cooldown s)
  /\ (thresholdframecount s + 1 = thresholdframes cfg ->
     start_guard cfg (before_start cfg d s) = true
     /\ recording (rules_at cfg d s f) = true
     /\ thresholdframecount (rules_at cfg d s f) = 0).
Proof.
  intros M R D C T.
  counters; repeat split; intros; try reflexivity; try lia; try congruence.
Qed.

(** One quiet iteration while idle. *)
Lemma idle_quiet_rules (cfg : Config) (d : Z) (s : State) (f : Frame) :
  1 <= thresholdframes cfg -> recording s = false -> d < threshold cfg ->
  recording (rules_at cfg d s f) = false
  /\ thresholdframecount (rules_at cfg d s f) = 0.
Proof.
  intros K R D.
  counters; repeat split; intros; try reflexivity; try lia; try congruence.
Qed.

(** One iteration while idle, whatever its score: the count grows by at
    most one, and nothing starts while it stays below [thresholdframes]. *)
Lemma idle_any_rules (cfg : Config) (d : Z) (s : State) (f : Frame) :
  recording s = false -> 0 <= thresholdframecount s ->
  thresholdframecount s + 1 < thresholdframes cfg ->
  recording (rules_at cfg d s f) = false
  /\ 0 <= thresholdframecount (rules_at cfg d s f) <= thresholdframecount s + 1.
Proof.
  intros R T0 T.
  counters; repeat split; intros; try reflexivity; try lia; try congruence.
Qed.

(** Fewer than [thresholdframes] loud iterations in a row, out of the
    cooldown, start nothing and are counted by [thresholdframecount]. *)
Lemma loud_prefixes (g : Pixel -> byte) (cfg : Config) :
  sane cfg ->
  forall (inputs : list Input) (s : State) (b : Frame),
    full_buffer cfg s -> newest s = Some b ->
    recording s = false -> 0 <= thresholdframecount s ->
    maxframes cfg <= cooldown s ->
    thresholdframecount s + len inputs < thresholdframes cfg ->
    forallb (loud cfg) (scores g b (map frame inputs)) = true ->
    forallb (enough_space cfg) inputs = true ->
    forall n, (n <= length inputs)%nat ->
      exists sn,
        main_loop g cfg s (firstn n inputs) = Ok sn
        /\ recording sn = false
        /\ thresholdframecount sn = thresholdframecount s + Z.of_nat n
        /\ cooldown sn = cooldown s
        /\ full_buffer cfg sn
        /\ newest sn = Some (last (map frame (firstn n inputs)) b).
Proof.
  intros S. induction inputs as [|i rest IH]; intros s b F N R T0 C T A SP n Ln.
  - destruct n; [|cbn in Ln; lia]. exists s. cbn.
    repeat split; try assumption. lia.
  - destruct n as [|n].
    { exists s. cbn. repeat split; try assumption. lia. }
    cbn [map scores forallb] in A, SP.
    apply andb_true_iff in A. destruct A as (A1 & A2).
    apply andb_true_iff in SP. destruct SP as (SP1 & SP2).
    unfold loud in A1.
    destruct (framediff g (frame i) b) as [d| |] eqn:D; try discriminate.
    apply Z.geb_le in A1.
    destruct (@scored_iteration g cfg s b i d S F N D SP1) as (E & L & F' & N').
    unfold len in T. cbn [length] in T, Ln.
    destruct (@idle_loud_rules cfg d s (frame i) (proj1 S) R A1 C)
      as (Keep & _); [lia|].
    destruct Keep as (_ & R1 & T1 & C1); [lia|].
    destruct (step_at_counters cfg d s i) as (R2 & _ & C2 & T2 & _).
    destruct (IH (step_at cfg d s i) (frame i) F' N') with (n := n)
      as (sn & Run & Rn & Tn & Cn & Fn & Nn);
      try assumption; try congruence; try lia.
    { unfold len. lia. }
    exists sn. cbn [firstn main_loop map]. rewrite L. cbn [bind].
    rewrite last_cons.
    repeat split; try assumption; try congruence; lia.
Qed.

(** Whatever the scores, fewer than [thresholdframes] iterations from a
    count of 0 start nothing. *)
Lemma no_start_before (g : Pixel -> byte) (cfg : Config) :
  sane cfg ->
  forall (inputs : list Input) (s s' : State),
    full_buffer cfg s -> recording s = false ->
    0 <= thresholdframecount s ->
    thresholdframecount s + len inputs < thresholdframes cfg ->
    main_loop g cfg s inputs = Ok s' ->
    recording s' = false.
Proof.
  intros S. induction inputs as [|i rest IH]; intros s s' F R T0 T Run.
  - cbn in Run. congruence.
  - cbn [main_loop] in Run.
    destruct (loop_body g cfg s i) as [s1| |] eqn:L; cbn [bind] in Run;
      try discriminate.
    destruct (@loop_body_inv g cfg s s1 i S F L) as (d & E & ->).
    unfold len in T. cbn [length] in T.
    destruct (@idle_any_rules cfg d s (frame i) R T0) as (R1 & T1); [lia|].
    destruct (step_at_counters cfg d s i) as (R2 & _ & _ & T2 & _).
    apply (IH (step_at cfg d s i) s'); try assumption; try congruence.
    + apply step_at_buffer; [apply S | exact F].
    + lia.
    + unfold len. lia.
Qed.

(** C6: let [k] be [thresholdframes] as the loop uses it (at least 1 after
    the clamp).  From an idle state with [thresholdframecount = 0] and
    [cooldown >= maxframes], [k] loud iterations in a row: after each of the
    first [k - 1] nothing has started and [thresholdframecount] is the number
    of loud iterations so far; on the [k]-th the start guard holds and
    [recording] becomes true.  Never earlier: fewer than [k] iterations from
    that state start nothing whatever their scores, and a quiet iteration
    while idle puts [thresholdframecount] back to 0. *)
Theorem start_on_kth_loud (g : Pixel -> byte) (c : Config) (s : State)
    (b : Frame) (inputs : list Input) (i : Input) :
  let cfg := clamp_thresholdframes c in
  let k := thresholdframes cfg in
  1 <= maxframes c -> 1 <= maxsavedframes c ->
  full_buffer cfg s -> newest s = Some b ->
  recording s = false -> thresholdframecount s = 0 ->
  maxframes cfg <= cooldown s ->
  len inputs = k - 1 ->
  forallb (loud cfg) (scores g b (map frame (inputs ++ [i]))) = true ->
  forallb (enough_space cfg) (inputs ++ [i]) = true ->
  1 <= k
  /\ (forall n, (n <= length inputs)%nat ->
        exists sn, main_loop g cfg s (firstn n inputs) = Ok sn
                   /\ recording sn = false
                   /\ thresholdframecount sn = Z.of_nat n)
  /\ (exists sl s',
        main_loop g cfg s inputs = Ok sl
        /\ starts g cfg sl (frame i) = true
        /\ main_loop g cfg s (inputs ++ [i]) = Ok s'
        /\ recording s' = true
        /\ thresholdframecount s' = 0)
  /\ (forall others s',
        len others < k -> main_loop g cfg s others = Ok s' ->
        recording s' = false)
  /\ (forall s0 i0 d0 s1,
        full_buffer cfg s0 -> recording s0 = false ->
        score g cfg s0 (frame i0) = Ok d0 -> d0 < threshold cfg ->
        loop_body g cfg s0 i0 = Ok s1 ->
        recording s1 = false /\ thresholdframecount s1 = 0).
Proof.
  intros cfg k M MS F N R T0 C Ln A SP.
  assert (S : sane cfg) by (apply clamp_sane; assumption).
  assert (K : 1 <= k) by apply S.
  rewrite map_app in A. cbn [map] in A. rewrite scores_snoc in A.
  apply forallb_snoc in A. destruct A as (A & Alast).
  apply forallb_snoc in SP. destruct SP as (SP & SPlast).
  assert (P : forall n, (n <= length inputs)%nat ->
     exists sn,
       main_loop g cfg s (firstn n inputs) = Ok sn
       /\ recording sn = false
       /\ thresholdframecount sn = thresholdframecount s + Z.of_nat n
       /\ cooldown sn = cooldown s
       /\ full_buffer cfg sn
       /\ newest sn = Some (last (map frame (firstn n inputs)) b)).
  { apply loud_prefixes; try assumption; fold k; lia. }
  split; [exact K|]. split; [|split; [|split]].
  - intros n Hn. destruct (P n Hn) as (sn & Run & Rn & Tn & _).
    exists sn. repeat split; try assumption. lia.
  - destruct (P (length inputs) (Nat.le_refl _))
      as (sl & Run & Rl & Tl & Cl & Fl & Nl).
    rewrite firstn_all in Run, Nl.
    unfold loud in Alast.
    destruct (framediff g (frame i) (last (map frame inputs) b)) as [d| |] eqn:D;
      try discriminate.
    apply Z.geb_le in Alast.
    destruct (@scored_iteration g cfg sl _ i d S Fl Nl D SPlast) as (E & L & _).
    unfold len in Ln.
    destruct (@idle_loud_rules cfg d sl (frame i) (proj1 S) Rl Alast)
      as (_ & Start); [lia | fold k; lia |].
    destruct Start as (G & R1 & T1); [fold k; lia|].
    destruct (step_at_counters cfg d sl i) as (R2 & _ & _ & T2 & _).
    exists sl, (step_at cfg d sl i).
    split; [exact Run|].
    split; [rewrite (starts_scored _ _ _ _ E); exact G|].
    split; [erewrite main_loop_snoc by exact Run; exact L|].
    split; congruence.
  - intros others s' Lo Run.
    apply (@no_start_before g cfg S others s s'); try assumption; fold k; lia.
  - intros s0 i0 d0 s1 F0 R0 E0 D0 L0.
    destruct (@loop_body_inv g cfg s0 s1 i0 S F0 L0) as (d & E & ->).
    assert (d = d0) by congruence. subst d.
    destruct (@idle_quiet_rules cfg d0 s0 (frame i0) K R0 D0) as (R1 & T1).
    destruct (step_at_counters cfg d0 s0 i0) as (R2 & _ & _ & T2 & _).
    split; congruence.
Qed.

Lemma start_on_kth_loud_witness :
  let cfg := clamp_thresholdframes Sample.pair in
  let s := init_state cfg [Sample.black; Sample.black] in
  let inputs := [Sample.see Sample.dim] in
  let i := Sample.see Sample.white in
  recording s = false
  /\ thresholdframecount s = 0
  /\ maxframes cfg <= cooldown s
  /\ len inputs = thresholdframes cfg - 1
  /\ forallb (loud cfg)
       (scores Sample.luma Sample.black (map frame (inputs ++ [i]))) = true
  /\ exists sl s',
       main_loop Sample.luma cfg s inputs = Ok sl
       /\ starts Sample.luma cfg sl (frame i) = true
       /\ main_loop Sample.luma cfg s (inputs ++ [i]) = Ok s'
       /\ recording s' = true
       /\ thresholdframecount s' = 0.
Proof.
  intros cfg s inputs i.
  assert (M : 1 <= maxframes Sample.pair) by (vm_compute; discriminate).
  assert (MS : 1 <= maxsavedframes Sample.pair) by (vm_compute; discriminate).
  assert (F : full_buffer cfg s) by (vm_compute; reflexivity).
  assert (N : newest s = Some Sample.black) by reflexivity.
  assert (R : recording s = false) by reflexivity.
  assert (T : thresholdframecount s = 0) by reflexivity.
  assert (C : maxframes cfg <= cooldown s) by (vm_compute; discriminate).
  assert (L : len inputs = thresholdframes cfg - 1) by reflexivity.
  assert (A : forallb (loud cfg)
                (scores Sample.luma Sample.black (map frame (inputs ++ [i])))
              = true) by (vm_compute; reflexivity).
  assert (SP : forallb (enough_space cfg) (inputs ++ [i]) = true)
    by (vm_compute; reflexivity).
  destruct (@start_on_kth_loud Sample.luma Sample.pair s Sample.black
              inputs i M MS F N R T C L A SP)
    as (_ & _ & Start & _).
  split; [exact R|]. split; [exact T|]. split; [exact C|]. split; [exact L|].
  split; [exact A | exact Start].
Defined.

(** ** The quiet counter across recordings *)

Lemma has_started_rules_at (cfg : Config) (d : Z) (s : State) (f : Frame) :
  has_started (rules_at cfg d s f)
  = has_started s || start_guard cfg (before_start cfg d s).
Proof.
  counters; unfold has_started; fields; rewrite ?existsb_app;
    cbn [existsb orb]; rewrite ?orb_false_r, ?orb_true_r; reflexivity.
Qed.

Lemma quietlen_rules_at (cfg : Config) (d : Z) (s : State) (f : Frame)
    (started : bool) :
  1 <= maxframes cfg -> 1 <= thresholdframes cfg ->
  0 <= quietlen s <= maxframes cfg ->
  (recording s = true -> quietlen s < maxframes cfg) ->
  (recording s = false -> started = true -> quietlen s = maxframes cfg) ->
  0 <= quietlen (rules_at cfg d s f) <= maxframes cfg
  /\ (recording (rules_at cfg d s f) = true ->
      quietlen (rules_at cfg d s f) < maxframes cfg)
  /\ (recording (rules_at cfg d s f) = false ->
      started || start_guard cfg (before_start cfg d s) = true ->
      quietlen (rules_at cfg d s f) = maxframes cfg).
Proof.
  intros M K Q0 Q1 Q2.
  counters; repeat split; intros; try reflexivity; try lia; try congruence;
    rewrite ?orb_false_r in *; auto.
Qed.

Lemma reachable_quietlen_invariant (g : Pixel -> byte) (cfg : Config)
    (s : State) :
  sane cfg -> reachable g cfg s -> quietlen_invariant cfg s.
Proof.
  intros S R. induction R as [frames L | s s' i R IH B].
  - unfold quietlen_invariant, init_state, has_started. cbn.
    destruct S as (M & _). repeat split; try lia; discriminate.
  - pose proof (reachable_full_buffer S R) as F.
    destruct (@loop_body_inv g cfg s s' i S F B) as (d & _ & ->).
    destruct (step_at_counters cfg d s i) as (R2 & Q2 & _ & _ & H2).
    unfold quietlen_invariant in *.
    rewrite R2, Q2, H2, has_started_rules_at.
    destruct IH as (Q0 & Q1 & Q3).
    apply quietlen_rules_at; try assumption; apply S.
Qed.

Lemma quietlen_start_stop (cfg : Config) (s : State) :
  quietlen (start_recording cfg s) = quietlen s
  /\ quietlen (stop_recording cfg s) = quietlen s.
Proof.
  destruct s. split.
  - unfold start_recording. destruct (start_guard cfg _); reflexivity.
  - unfold stop_recording. destruct (stop_guard cfg _); reflexivity.
Qed.

Lemma quietlen_change (cfg : Config) (d : Z) (s : State) (f : Frame) :
  quietlen (rules_at cfg d s f) = quietlen s
  \/ (recording (add_current_frame cfg
                   (start_recording cfg (before_start cfg d s)) f) = true
      /\ threshold cfg <= d
      /\ quietlen (rules_at cfg d s f) = 0)
  \/ (recording (add_current_frame cfg
                   (start_recording cfg (before_start cfg d s)) f) = true
      /\ d < threshold cfg
      /\ quietlen (rules_at cfg d s f) = quietlen s + 1).
Proof.
  counters;
    solve [ left; reflexivity
          | right; left; repeat split; (reflexivity || lia)
          | right; right; repeat split; (reflexivity || lia) ].
Qed.

(** A start with [quietlen] still at [maxframes]. *)
Lemma stale_start_rules (cfg : Config) (d : Z) (s : State) (f : Frame) :
  1 <= maxframes cfg -> 1 <= thresholdframes cfg ->
  recording s = false -> quietlen s = maxframes cfg ->
  start_guard cfg (before_start cfg d s) = true ->
  threshold cfg <= d
  /\ quietlen (start_recording cfg (before_start cfg d s)) = maxframes cfg
  /\ add_current_frame cfg (start_recording cfg (before_start cfg d s)) f
     = start_recording cfg (before_start cfg d s)
  /\ savedframes (before_flush cfg d s f) = savedframes s ++ framebuffer s
  /\ recording (rules_at cfg d s f) = true
  /\ quietlen (rules_at cfg d s f) = 0.
Proof.
  intros M K R Q G.
  counters; repeat split; intros; try reflexivity; try lia; try congruence.
Qed.

(** C10: [quietlen] is changed by the quiet counter alone: a start and a stop
    leave it as it is, and an iteration changes it only while recording, to 0
    on a score at or above the threshold and by one on a score below.
    Consequently, in every reachable state in which a recording has been
    started before, an iteration that starts a recording finds [quietlen]
    still at [maxframes]: the test [quietlen < maxframes] fails, the new
    frame is not appended, and [savedframes] grows by the pre-roll only. *)
Theorem later_start_skips_trigger_frame (g : Pixel -> byte) (cfg : Config)
    (s : State) (f : Frame) :
  sane cfg -> reachable g cfg s ->
  has_started s = true -> starts g cfg s f = true ->
  (forall s0, quietlen (start_recording cfg s0) = quietlen s0
              /\ quietlen (stop_recording cfg s0) = quietlen s0)
  /\ (forall d0 s0 f0,
        quietlen (rules_at cfg d0 s0 f0) = quietlen s0
        \/ (recording (add_current_frame cfg
                         (start_recording cfg (before_start cfg d0 s0)) f0) = true
            /\ threshold cfg <= d0
            /\ quietlen (rules_at cfg d0 s0 f0) = 0)
        \/ (recording (add_current_frame cfg
                         (start_recording cfg (before_start cfg d0 s0)) f0) = true
            /\ d0 < threshold cfg
            /\ quietlen (rules_at cfg d0 s0 f0) = quietlen s0 + 1))
  /\ quietlen s = maxframes cfg
  /\ (quietlen s <? maxframes cfg) = false
  /\ exists d s',
       score g cfg s f = Ok d
       /\ threshold cfg <= d
       /\ quietlen (start_recording cfg (before_start cfg d s)) = maxframes cfg
       /\ add_current_frame cfg (start_recording cfg (before_start cfg d s)) f
          = start_recording cfg (before_start cfg d s)
       /\ update g cfg s f = Ok s'
       /\ savedframes s' = savedframes s ++ framebuffer s
       /\ recording s' = true
       /\ quietlen s' = 0.
Proof.
  intros S R H ST.
  split; [apply quietlen_start_stop|].
  split; [apply quietlen_change|].
  destruct (starts_inv _ _ _ _ ST) as (d & E & Rs & G).
  destruct (reachable_quietlen_invariant S R) as (_ & _ & Q).
  specialize (Q Rs H).
  pose proof (reachable_full_buffer S R) as F.
  destruct S as (M & K & _).
  destruct (@stale_start_rules cfg d s f M K Rs Q G)
    as (D & Q1 & A & SF & R1 & Q2).
  split; [exact Q|].
  split; [apply Z.ltb_ge; lia|].
  exists d, (before_flush cfg d s f).
  split; [exact E|]. split; [exact D|]. split; [exact Q1|]. split; [exact A|].
  split; [apply update_scored; assumption|].
  split; [exact SF|].
  unfold before_flush, rotated. fields. split; assumption.
Qed.

Lemma later_start_skips_trigger_frame_witness :
  let s := Sample.after_first_recording in
  let f := Sample.white in
  sane Sample.small
  /\ reachable Sample.luma Sample.small s
  /\ has_started s = true
  /\ starts Sample.luma Sample.small s f = true
  /\ quietlen s = maxframes Sample.small
  /\ exists d s',
       score Sample.luma Sample.small s f = Ok d
       /\ update Sample.luma Sample.small s f = Ok s'
       /\ savedframes s' = savedframes s ++ framebuffer s.
Proof.
  intros s f.
  assert (S : sane Sample.small) by (vm_compute; repeat split; discriminate).
  assert (R : reachable Sample.luma Sample.small s).
  { apply (@script_reachable Sample.luma Sample.small [Sample.black]
             [Sample.see Sample.dim; Sample.see Sample.dim]).
    - vm_compute. split; discriminate.
    - vm_compute. reflexivity. }
  assert (H : has_started s = true) by (vm_compute; reflexivity).
  assert (ST : starts Sample.luma Sample.small s f = true)
    by (vm_compute; reflexivity).
  destruct (@later_start_skips_trigger_frame Sample.luma Sample.small s f
              S R H ST)
    as (_ & _ & Q & _ & d & s' & E & _ & _ & _ & U & SF & _).
  split; [exact S|]. split; [exact R|]. split; [exact H|]. split; [exact ST|].
  split; [exact Q|].
  exists d, s'. split; [exact E|]. split; [exact U | exact SF].
Defined.

(** * Further properties of the script *)

(** ** [framediff]: when it returns, and the range of the score *)

Lemma sum_upto_bounds (n : nat) (f : nat -> Z) (c : Z) :
  (forall i, 0 <= f i <= c) ->
  0 <= sum_upto n f <= c * Z.of_nat n.
Proof.
  intros B. unfold sum_upto.
  assert (G : forall l : list nat,
             0 <= fold_right Z.add 0 (map f l) <= c * Z.of_nat (length l)).
  { induction l as [|x l IH]; cbn [map fold_right length].
    - rewrite Z.mul_0_r. lia.
    - specialize (B x). rewrite Nat2Z.inj_succ, Z.mul_succ_r. lia. }
  specialize (G (seq 0 n)). rewrite length_seq in G. exact G.
Qed.

Lemma sum2_bounds (h w : nat) (f : nat -> nat -> Z) (c : Z) :
  (forall i j, 0 <= f i j <= c) ->
  0 <= sum2 h w f <= c * Z.of_nat w * Z.of_nat h.
Proof.
  intros B. unfold sum2.
  apply (sum_upto_bounds h (fun i => sum_upto w (fun j => f i j))).
  intros i. apply (sum_upto_bounds w (fun j => f i j)). intros j. apply B.
Qed.

Lemma saturate_u8_range (x : Z) : 0 <= saturate_u8 x <= 255.
Proof. unfold saturate_u8. lia. Qed.

Lemma summed_difference_le (g : Pixel -> byte) (a b : Frame) :
  summed_difference g a b
  <= 255 * Z.of_nat (width a) * Z.of_nat (height a).
Proof.
  unfold summed_difference.
  set (f := fun i j => saturate_u8 (gray_at g a i j - gray_at g b i j)).
  assert (B : 0 <= sum2 (height a) (width a) f
              <= 255 * Z.of_nat (width a) * Z.of_nat (height a)).
  { apply sum2_bounds. intros i j. apply saturate_u8_range. }
  pose proof (Z.mod_le (sum2 (height a) (width a) f) (2 ^ 64)).
  lia.
Qed.

(** The shapes for which [framediff] gets as far as the division. *)
Lemma framediff_cases (g : Pixel -> byte) (a b : Frame) :
  (height a <> 0%nat /\ width a <> 0%nat
   /\ height a = height b /\ width a = width b
   /\ framediff g a b
      = Ok (4 * summed_difference g a b
            / (Z.of_nat (height a) * Z.of_nat (width a))))
  \/ ((height a = 0%nat \/ width a = 0%nat \/ height b = 0%nat
       \/ width b = 0%nat \/ height a <> height b \/ width a <> width b)
      /\ framediff g a b = Raise cv2_error).
Proof.
  destruct (Nat.eq_dec (height a) 0) as [A1|A1].
  { right. split; [tauto|]. unfold framediff, cvtColor. rewrite A1. reflexivity. }
  destruct (Nat.eq_dec (width a) 0) as [A2|A2].
  { right. split; [tauto|]. unfold framediff, cvtColor. rewrite A2.
    rewrite orb_true_r. reflexivity. }
  destruct (Nat.eq_dec (height b) 0) as [B1|B1].
  { right. split; [tauto|]. unfold framediff, cvtColor. rewrite B1.
    apply Nat.eqb_neq in A1, A2. rewrite A1, A2. reflexivity. }
  destruct (Nat.eq_dec (width b) 0) as [B2|B2].
  { right. split; [tauto|]. unfold framediff, cvtColor. rewrite B2.
    apply Nat.eqb_neq in A1, A2. rewrite A1, A2, orb_true_r. reflexivity. }
  destruct (Nat.eq_dec (height a) (height b)) as [H|H].
  - destruct (Nat.eq_dec (width a) (width b)) as [W|W].
    + left. repeat split; try assumption.
      apply framediff_value; try assumption; lia.
    + right. split; [tauto|]. unfold framediff, cvtColor.
      apply Nat.eqb_neq in A1, A2, B1, B2, W.
      rewrite A1, A2, B1, B2. cbn [orb bind]. unfold subtract.
      cbn [gheight gwidth]. rewrite W, andb_false_r. reflexivity.
  - right. split; [tauto|]. unfold framediff, cvtColor.
    apply Nat.eqb_neq in A1, A2, B1, B2, H.
    rewrite A1, A2, B1, B2. cbn [orb bind]. unfold subtract.
    cbn [gheight gwidth]. rewrite H. reflexivity.
Qed.

Lemma framediff_range (g : Pixel -> byte) (a b : Frame) (d : Z) :
  framediff g a b = Ok d -> 0 <= d <= 1020.
Proof.
  intros E.
  destruct (framediff_cases g a b) as [(A1 & A2 & _ & _ & V)|(_ & V)];
    [|congruence].
  pose proof (summed_difference_nonneg g a b) as LB.
  pose proof (summed_difference_le g a b) as UB.
  set (s := summed_difference g a b) in *.
  assert (D : d = 4 * s / (Z.of_nat (height a) * Z.of_nat (width a)))
    by congruence.
  rewrite D.
  assert (P : 0 < Z.of_nat (height a) * Z.of_nat (width a)) by nia.
  split.
  - apply Z.div_pos; [lia | exact P].
  - apply Z.div_le_upper_bound; [exact P|]. nia.
Qed.

(** X1: [framediff] returns a score exactly when both frames are non-empty
    and of one shape; in every other case (an empty frame, or two different
    shapes) it raises [cv2.error].  It raises nothing else and never ends
    the process. *)
Theorem framediff_returns_iff_same_shape (g : Pixel -> byte) (a b : Frame) :
  ((exists d, framediff g a b = Ok d)
   <-> (height a <> 0%nat /\ width a <> 0%nat
        /\ height a = height b /\ width a = width b))
  /\ ((forall d, framediff g a b <> Ok d) -> framediff g a b = Raise cv2_error).
Proof.
  destruct (framediff_cases g a b) as [(A1 & A2 & H & W & V)|(C & V)].
  - split.
    + split; [intros _; repeat split; assumption|].
      intros _. eexists. exact V.
    + intros N. exfalso. exact (N _ V).
  - split.
    + split.
      * intros (d & E). congruence.
      * intros (A1 & A2 & H & W). exfalso.
        destruct C as [C|[C|[C|[C|[C|C]]]]]; congruence.
    + intros _. exact V.
Qed.

(** X2: every score lies between 0 and 1020 (four times the largest pixel
    difference, 255), and a non-empty frame scored against itself gives 0. *)
Theorem framediff_score_range (g : Pixel -> byte) (a b : Frame) :
  (forall d, framediff g a b = Ok d -> 0 <= d <= 1020)
  /\ (height a <> 0%nat -> width a <> 0%nat -> framediff g a a = Ok 0).
Proof.
  split; [intros d; apply framediff_range|].
  intros A1 A2.
  rewrite framediff_value by (try reflexivity; lia).
  assert (Z0 : summed_difference g a a = 0).
  { unfold summed_difference.
    rewrite (sum2_ext (height a) (width a) _ (fun _ _ => 0)).
    - assert (B : 0 <= sum2 (height a) (width a) (fun _ _ => 0)
                  <= 0 * Z.of_nat (width a) * Z.of_nat (height a)).
      { apply sum2_bounds. intros; lia. }
      replace (sum2 (height a) (width a) (fun _ _ => 0)) with 0 by lia.
      reflexivity.
    - intros i j. rewrite Z.sub_diag. reflexivity. }
  rewrite Z0. reflexivity.
Qed.

Lemma framediff_score_range_witness :
  height Sample.dim <> 0%nat
  /\ width Sample.dim <> 0%nat
  /\ framediff Sample.luma Sample.dim Sample.dim = Ok 0.
Proof.
  assert (A1 : height Sample.dim <> 0%nat) by discriminate.
  assert (A2 : width Sample.dim <> 0%nat) by discriminate.
  split; [exact A1|]. split; [exact A2|].
  apply (proj2 (framediff_score_range Sample.luma Sample.dim Sample.dim) A1 A2).
Defined.

(** ** The free-space test and the ways the process ends *)

Lemma gib_quotient (free : Z) : free / 1024 / 1024 / 1024 = free / GiB.
Proof.
  rewrite !Z.div_div by lia. reflexivity.
Qed.

Lemma enough_space_spec (cfg : Config) (i : Input) :
  enough_space cfg i = true
  <-> (diskcheck cfg = false \/ minfreespace cfg * GiB <= disk_free i).
Proof.
  unfold enough_space. rewrite gib_quotient.
  assert (G : 0 < GiB) by (unfold GiB; lia).
  destruct (diskcheck cfg); cbn [negb orb].
  - rewrite negb_true_iff, Z.ltb_ge. split.
    + intros H. right.
      pose proof (Z.mul_div_le (disk_free i) GiB G). nia.
    + intros [H|H]; [discriminate|].
      apply Z.div_le_lower_bound; [exact G|]. lia.
  - split; [intros _; left; reflexivity | reflexivity].
Qed.

(** X3: with the disk check on, [savetofile] goes ahead exactly when the
    free space is at least [minfreespace] GiB: the three successive floor
    divisions by 1024 compare the byte count with [minfreespace * 2^30].  A
    non-empty buffer is then written and otherwise the process exits with
    status 1. *)
Theorem savetofile_free_space_bound (cfg : Config) (s : State) (i : Input) :
  diskcheck cfg = true -> savedframes s <> [] ->
  (minfreespace cfg * GiB <= disk_free i ->
   savetofile cfg s (disk_free i) = Ok (flushed cfg s))
  /\ (disk_free i < minfreespace cfg * GiB ->
      savetofile cfg s (disk_free i)
      = Exit 1 (printed s ++ [HddSpaceBelow (minfreespace cfg)])).
Proof.
  intros DC NE. rewrite (@savetofile_nonempty cfg s i NE).
  pose proof (enough_space_spec cfg i) as SP.
  destruct (enough_space cfg i).
  - split; [reflexivity|]. intros L.
    destruct (proj1 SP eq_refl) as [H|H]; [congruence | lia].
  - split; [|reflexivity]. intros L.
    assert (F : false = true) by (apply SP; right; exact L). discriminate.
Qed.

Lemma savetofile_free_space_bound_witness :
  let s := mkState false [Sample.black] 0 [Sample.black] 1 0 [] [] [] in
  let low := mkInput Sample.dim (GiB - 1) in
  diskcheck Sample.small = true
  /\ savedframes s <> []
  /\ savetofile Sample.small s (disk_free low)
     = Exit 1 [HddSpaceBelow 1].
Proof.
  intros s low.
  assert (DC : diskcheck Sample.small = true) by reflexivity.
  assert (NE : savedframes s <> []) by discriminate.
  split; [exact DC|]. split; [exact NE|].
  apply (proj2 (@savetofile_free_space_bound Sample.small s low DC NE)).
  vm_compute. reflexivity.
Defined.

(** X4: the SIGINT handler never returns to the loop.  With frames pending
    it writes them as one video and exits with status 0 after the line
    "n frames saved.", or exits with status 1 when the free-space test
    fails. *)
Theorem signal_handler_ends_process (cfg : Config) (s : State) (i : Input) :
  (forall s', signal_handler cfg s (disk_free i) <> Ok s')
  /\ (savedframes s <> [] ->
      signal_handler cfg s (disk_free i)
      = if enough_space cfg i
        then Exit 0 (printed s ++ [FramesSaved (len (savedframes s))])
        else Exit 1 (printed s ++ [HddSpaceBelow (minfreespace cfg)])).
Proof.
  split.
  - intros s'. unfold signal_handler.
    destruct (savetofile cfg s (disk_free i)); discriminate.
  - intros NE. unfold signal_handler.
    rewrite (@savetofile_nonempty cfg s i NE).
    destruct (enough_space cfg i); [|reflexivity].
    cbn [bind]. unfold flushed.
    destruct (savedframes s) as [|first rest] eqn:SF; [congruence|].
    fields. reflexivity.
Qed.

Lemma signal_handler_ends_process_witness :
  let s := mkState true [Sample.black; Sample.dim] 0 [Sample.dim] 1 0
             [StartedRecording] [] [] in
  let i := Sample.see Sample.dim in
  savedframes s <> []
  /\ signal_handler Sample.small s (disk_free i)
     = Exit 0 [StartedRecording; FramesSaved 2].
Proof.
  intros s i.
  assert (NE : savedframes s <> []) by discriminate.
  split; [exact NE|].
  rewrite (proj2 (signal_handler_ends_process Sample.small s i) NE).
  vm_compute. reflexivity.
Defined.

(** X5: an iteration ends the process through [exit] only from the size
    check: the status is 1, the disk check is on, fewer than [minfreespace]
    GiB are free, and [savedframes] has reached [maxsavedframes]; the last
    line printed is the one about the disk.  With the disk check off an
    iteration never exits. *)
Theorem loop_exit_only_on_low_disk (g : Pixel -> byte) (cfg : Config)
    (s : State) (i : Input) (code : Z) (out : list event) :
  sane cfg -> full_buffer cfg s ->
  loop_body g cfg s i = Exit code out ->
  code = 1
  /\ diskcheck cfg = true
  /\ disk_free i < minfreespace cfg * GiB
  /\ exists d,
       score g cfg s (frame i) = Ok d
       /\ maxsavedframes cfg <= len (savedframes (before_flush cfg d s (frame i)))
       /\ out = printed (before_flush cfg d s (frame i))
                ++ [HddSpaceBelow (minfreespace cfg)].
Proof.
  intros S F L.
  destruct (score g cfg s (frame i)) as [d|e|c o] eqn:E.
  - rewrite (@loop_body_cases g cfg s i d S F E) in L.
    destruct (flush_guard cfg _) eqn:G; cbn [andb] in L; [|discriminate].
    destruct (enough_space cfg i) eqn:SP; cbn [negb] in L; [discriminate|].
    injection L as <- <-.
    assert (NS : ~ (diskcheck cfg = false
                    \/ minfreespace cfg * GiB <= disk_free i)).
    { intros H. apply enough_space_spec in H. congruence. }
    split; [reflexivity|]. split.
    { destruct (diskcheck cfg); [reflexivity | tauto]. }
    split; [lia|].
    exists d. split; [reflexivity|]. split; [|reflexivity].
    apply flush_guard_spec. exact G.
  - unfold loop_body in L. rewrite update_hoisted, E in L. discriminate.
  - exfalso. unfold score in E.
    destruct (py_getitem (framebuffer s) (maxframes cfg - 1)) as [b| |] eqn:B;
      cbn [bind] in E.
    + destruct (framediff_cases g (frame i) b) as [(_ & _ & _ & _ & V)|(_ & V)];
        congruence.
    + discriminate.
    + unfold py_getitem in B.
      destruct (_ && _); [destruct (nth_error _ _)|]; discriminate.
Qed.

Lemma loop_exit_only_on_low_disk_witness :
  let s := init_state Sample.tiny [Sample.black] in
  let i := mkInput Sample.dim 0 in
  sane Sample.tiny
  /\ full_buffer Sample.tiny s
  /\ loop_body Sample.luma Sample.tiny s i
     = Exit 1 [StartedRecording; HddSpaceBelow 1]
  /\ diskcheck Sample.tiny = true.
Proof.
  intros s i.
  assert (S : sane Sample.tiny) by (vm_compute; repeat split; discriminate).
  assert (F : full_buffer Sample.tiny s) by (vm_compute; reflexivity).
  assert (L : loop_body Sample.luma Sample.tiny s i
              = Exit 1 [StartedRecording; HddSpaceBelow 1])
    by (vm_compute; reflexivity).
  split; [exact S|]. split; [exact F|]. split; [exact L|].
  apply (@loop_exit_only_on_low_disk Sample.luma Sample.tiny s i _ _ S F L).
Defined.

(** X6: a frame buffer of length [maxframes <= 0] cannot be indexed: the
    initialisation reads no frame, and the first iteration raises
    [IndexError] at [framebuffer[maxframes-1]]. *)
Theorem nonpositive_maxframes_raises (g : Pixel -> byte) (c : Config)
    (camera : list Frame) (i : Input) (rest : list Input) :
  maxframes c <= 0 ->
  script g c camera (i :: rest) = Raise IndexError.
Proof.
  intros M. unfold script.
  replace (Z.to_nat (maxframes c)) with 0%nat by lia.
  cbn [firstn main_loop]. unfold loop_body. rewrite update_hoisted.
  unfold score, init_state. cbn [framebuffer].
  unfold py_getitem. cbn [length Z.of_nat].
  cbn [clamp_thresholdframes maxframes].
  destruct (maxframes c - 1 <? 0) eqn:N; [|apply Z.ltb_ge in N; lia].
  rewrite Z.add_0_r.
  destruct (0 <=? maxframes c - 1) eqn:P; [apply Z.leb_le in P; lia|].
  reflexivity.
Qed.

Lemma nonpositive_maxframes_raises_witness :
  let c := mkConfig 0 15 1 1000 1 true true in
  maxframes c <= 0
  /\ script Sample.luma c [Sample.black] [Sample.see Sample.dim]
     = Raise IndexError.
Proof.
  intros c.
  assert (M : maxframes c <= 0) by (cbn; lia).
  split; [exact M|].
  apply (@nonpositive_maxframes_raises Sample.luma c [Sample.black]
           (Sample.see Sample.dim) [] M).
Defined.

(** ** Which frames are recorded *)

Lemma savedframes_rules_at (cfg : Config) (d : Z) (s : State) (f : Frame) :
  videos (rules_at cfg d s f) = videos s
  /\ savedframes (rules_at cfg d s f)
     = savedframes s
       ++ (if recording s
           then (if quietlen s <? maxframes cfg then [f] else [])
           else if start_guard cfg (before_start cfg d s)
                then framebuffer s
                     ++ (if quietlen s <? maxframes cfg then [f] else [])
                else []).
Proof.
  counters; unfold start_guard; fields; simplify_tests;
    rewrite <- ?app_assoc, ?app_nil_r; split; reflexivity.
Qed.

Lemma recorded_flushed (cfg : Config) (s : State) :
  recorded (flushed cfg s) = recorded s.
Proof.
  unfold flushed. destruct (savedframes s) as [|first rest] eqn:SF;
    [reflexivity|].
  unfold recorded. fields. rewrite SF.
  rewrite map_app, concat_app. cbn [map concat video_frames].
  rewrite !app_nil_r. reflexivity.
Qed.

Lemma recorded_step_at (cfg : Config) (d : Z) (s : State) (i : Input) :
  recorded (step_at cfg d s i)
  = concat (map video_frames (videos s))
    ++ savedframes (rules_at cfg d s (frame i)).
Proof.
  unfold step_at.
  assert (B : recorded (before_flush cfg d s (frame i))
              = concat (map video_frames (videos s))
                ++ savedframes (rules_at cfg d s (frame i))).
  { unfold recorded, before_flush, rotated. fields.
    rewrite (proj1 (savedframes_rules_at cfg d s (frame i))). reflexivity. }
  destruct (flush_guard cfg _); [rewrite recorded_flushed|]; exact B.
Qed.

(** X7: an iteration never drops or reorders what has been recorded: the
    frames written to video files so far followed by the frames pending in
    [savedframes] only grow at the end, by nothing, by the new frame, or by
    the contents of the frame buffer with or without the new frame.  A flush
    moves frames from memory to a file and changes nothing in the
    sequence. *)
Theorem recorded_only_grows (g : Pixel -> byte) (cfg : Config) (s s' : State)
    (i : Input) :
  sane cfg -> full_buffer cfg s ->
  loop_body g cfg s i = Ok s' ->
  exists added,
    recorded s' = recorded s ++ added
    /\ (added = [] \/ added = [frame i]
        \/ added = framebuffer s \/ added = framebuffer s ++ [frame i]).
Proof.
  intros S F L.
  destruct (@loop_body_inv g cfg s s' i S F L) as (d & _ & ->).
  rewrite recorded_step_at.
  rewrite (proj2 (savedframes_rules_at cfg d s (frame i))).
  unfold recorded.
  eexists. split; [rewrite <- app_assoc; reflexivity|].
  destruct (recording s), (start_guard cfg (before_start cfg d s)),
    (quietlen s <? maxframes cfg);
    rewrite ?app_nil_r; tauto.
Qed.

Lemma recorded_only_grows_witness :
  let s := init_state Sample.small [Sample.black] in
  let i := Sample.see Sample.dim in
  sane Sample.small
  /\ full_buffer Sample.small s
  /\ exists s' added,
       loop_body Sample.luma Sample.small s i = Ok s'
       /\ recorded s' = recorded s ++ added.
Proof.
  intros s i.
  assert (S : sane Sample.small) by (vm_compute; repeat split; discriminate).
  assert (F : full_buffer Sample.small s) by (vm_compute; reflexivity).
  assert (L : loop_body Sample.luma Sample.small s i
              = Ok (step_at Sample.small 64 s i)).
  { apply loop_body_scored; try assumption; vm_compute; reflexivity. }
  split; [exact S|]. split; [exact F|].
  destruct (@recorded_only_grows Sample.luma Sample.small s _ i S F L)
    as (added & R & _).
  exists (step_at Sample.small 64 s i), added. split; [exact L | exact R].
Defined.

(** Before the first start [quietlen] is 0. *)
Lemma fresh_rules_at (cfg : Config) (d : Z) (s : State) (f : Frame) :
  recording s = false -> quietlen s = 0 ->
  start_guard cfg (before_start cfg d s) = false ->
  recording (rules_at cfg d s f) = false /\ quietlen (rules_at cfg d s f) = 0.
Proof.
  intros R Q G.
  counters; unfold start_guard in *; fields; simplify_tests;
    repeat split; intros; try reflexivity; try lia; try congruence.
Qed.

Lemma reachable_fresh (g : Pixel -> byte) (cfg : Config) (s : State) :
  sane cfg -> reachable g cfg s -> has_started s = false ->
  recording s = false /\ quietlen s = 0.
Proof.
  intros S R. induction R as [frames L | s s' i R IH B]; intros H.
  - split; reflexivity.
  - pose proof (reachable_full_buffer S R) as F.
    destruct (@loop_body_inv g cfg s s' i S F B) as (d & _ & ->).
    destruct (step_at_counters cfg d s i) as (R2 & Q2 & _ & _ & H2).
    rewrite H2, has_started_rules_at in H.
    apply orb_false_iff in H. destruct H as (H & G).
    destruct (IH H) as (R0 & Q0).
    rewrite R2, Q2. apply fresh_rules_at; assumption.
Qed.

(** X8: what an iteration records, in the states the script reaches.  While
    a recording runs every frame read is recorded; an idle iteration that
    starts a recording records the contents of the frame buffer, followed by
    the new frame only if it is the first recording of the run; an idle
    iteration that starts nothing records nothing. *)
Theorem recorded_per_iteration (g : Pixel -> byte) (cfg : Config)
    (s s' : State) (i : Input) :
  sane cfg -> reachable g cfg s ->
  loop_body g cfg s i = Ok s' ->
  recorded s'
  = recorded s
    ++ (if recording s then [frame i]
        else if starts g cfg s (frame i)
             then framebuffer s ++ (if has_started s then [] else [frame i])
             else []).
Proof.
  intros S R L.
  pose proof (reachable_full_buffer S R) as F.
  destruct (reachable_quietlen_invariant S R) as (Q0 & Q1 & Q2).
  pose proof (reachable_fresh S R) as Q3.
  destruct (@loop_body_inv g cfg s s' i S F L) as (d & E & ->).
  rewrite recorded_step_at.
  rewrite (proj2 (savedframes_rules_at cfg d s (frame i))).
  rewrite (starts_scored _ _ _ _ E).
  unfold recorded. rewrite <- app_assoc. f_equal. f_equal.
  destruct S as (M & _).
  destruct (recording s) eqn:Rs.
  - specialize (Q1 eq_refl).
    replace (quietlen s <? maxframes cfg) with true
      by (symmetry; apply Z.ltb_lt; lia).
    reflexivity.
  - destruct (start_guard cfg (before_start cfg d s)); [|reflexivity].
    destruct (has_started s) eqn:H.
    + specialize (Q2 eq_refl eq_refl).
      replace (quietlen s <? maxframes cfg) with false
        by (symmetry; apply Z.ltb_ge; lia).
      reflexivity.
    + destruct (Q3 eq_refl) as (_ & Q).
      replace (quietlen s <? maxframes cfg) with true
        by (symmetry; apply Z.ltb_lt; lia).
      reflexivity.
Qed.

Lemma recorded_per_iteration_witness :
  let s := Sample.after_first_recording in
  let i := Sample.see Sample.white in
  sane Sample.small
  /\ reachable Sample.luma Sample.small s
  /\ exists s',
       loop_body Sample.luma Sample.small s i = Ok s'
       /\ recorded s' = recorded s ++ framebuffer s.
Proof.
  intros s i.
  assert (S : sane Sample.small) by (vm_compute; repeat split; discriminate).
  assert (R : reachable Sample.luma Sample.small s).
  { apply (@script_reachable Sample.luma Sample.small [Sample.black]
             [Sample.see Sample.dim; Sample.see Sample.dim]).
    - vm_compute. split; discriminate.
    - vm_compute. reflexivity. }
  assert (L : loop_body Sample.luma Sample.small s i
              = Ok (step_at Sample.small 956 s i)).
  { apply loop_body_scored; try assumption; vm_compute; reflexivity. }
  split; [exact S|]. split; [exact R|].
  exists (step_at Sample.small 956 s i). split; [exact L|].
  rewrite (@recorded_per_iteration Sample.luma Sample.small s _ i S R L).
  assert (Rs : recording s = false) by (vm_compute; reflexivity).
  assert (St : starts Sample.luma Sample.small s (frame i) = true)
    by (vm_compute; reflexivity).
  assert (H : has_started s = true) by (vm_compute; reflexivity).
  rewrite Rs, St, H, app_nil_r. reflexivity.
Defined.

(** ** The frame buffer as a sliding window *)

Lemma framebuffer_step_at (cfg : Config) (d : Z) (s : State) (i : Input) :
  framebuffer (step_at cfg d s i) = tl (framebuffer s) ++ [frame i].
Proof.
  assert (B : framebuffer (before_flush cfg d s (frame i))
              = tl (framebuffer s) ++ [frame i]).
  { unfold before_flush, rotated. fields.
    rewrite framebuffer_rules_at. reflexivity. }
  unfold step_at. destruct (flush_guard cfg _); [|exact B].
  unfold flushed. destruct (savedframes _); [exact B|].
  fields. exact B.
Qed.

(** X9: the frame buffer is a window over the frames read: after any number
    of iterations it holds the last [maxframes] of the initial frames
    followed by the frames read since, oldest first. *)
Theorem framebuffer_sliding_window (g : Pixel -> byte) (cfg : Config) :
  sane cfg ->
  forall (inputs : list Input) (s s' : State),
    full_buffer cfg s ->
    main_loop g cfg s inputs = Ok s' ->
    framebuffer s'
    = skipn (length inputs) (framebuffer s ++ map frame inputs)
    /\ len (framebuffer s') = maxframes cfg.
Proof.
  intros S. induction inputs as [|i rest IH]; intros s s' F Run.
  - cbn in Run. injection Run as <-. cbn [map length skipn].
    rewrite app_nil_r. split; [reflexivity | exact F].
  - cbn [main_loop] in Run.
    destruct (loop_body g cfg s i) as [s1| |] eqn:L; cbn [bind] in Run;
      try discriminate.
    destruct (@loop_body_inv g cfg s s1 i S F L) as (d & _ & ->).
    destruct (@step_at_buffer cfg d s i (proj1 S) F) as (F1 & _).
    destruct (IH _ _ F1 Run) as (W & Ln).
    split; [|exact Ln].
    rewrite W, framebuffer_step_at.
    unfold full_buffer, len in F. destruct S as (M & _).
    destruct (framebuffer s) as [|x fb]; cbn [length] in F; [lia|].
    cbn [tl map length skipn app]. rewrite <- app_assoc. reflexivity.
Qed.

Lemma framebuffer_sliding_window_witness :
  let s := init_state Sample.pair [Sample.black; Sample.black] in
  let inputs := [Sample.see Sample.dim; Sample.see Sample.white;
                 Sample.see Sample.dim] in
  sane Sample.pair
  /\ full_buffer Sample.pair s
  /\ exists s', main_loop Sample.luma Sample.pair s inputs = Ok s'
                /\ framebuffer s' = [Sample.white; Sample.dim].
Proof.
  intros s inputs.
  assert (S : sane Sample.pair) by (vm_compute; repeat split; discriminate).
  assert (F : full_buffer Sample.pair s) by (vm_compute; reflexivity).
  split; [exact S|]. split; [exact F|].
  set (s' := Sample.state_of (main_loop Sample.luma Sample.pair s inputs)).
  assert (Run : main_loop Sample.luma Sample.pair s inputs = Ok s')
    by (vm_compute; reflexivity).
  exists s'. split; [exact Run|].
  apply (@framebuffer_sliding_window Sample.luma Sample.pair S inputs s s' F Run).
Defined.

(** ** Ranges of the counters *)

Lemma counters_rules_at (cfg : Config) (d : Z) (s : State) (f : Frame) :
  1 <= maxframes cfg -> 1 <= thresholdframes cfg ->
  0 <= thresholdframecount s <= thresholdframes cfg ->
  0 <= cooldown s <= maxframes cfg ->
  (recording s = true ->
   thresholdframecount s = 0 /\ cooldown s = maxframes cfg) ->
  0 <= thresholdframecount (rules_at cfg d s f) <= thresholdframes cfg
  /\ 0 <= cooldown (rules_at cfg d s f) <= maxframes cfg
  /\ (recording (rules_at cfg d s f) = true ->
      thresholdframecount (rules_at cfg d s f) = 0
      /\ cooldown (rules_at cfg d s f) = maxframes cfg).
Proof.
  intros M K T C R.
  counters; repeat split; intros; try reflexivity; try lia; try congruence;
    try (destruct R; [reflexivity|lia]).
Qed.

(** X10: in every state the script reaches, [thresholdframecount] lies in
    [0..thresholdframes] and [cooldown] in [0..maxframes]; while a recording
    runs [thresholdframecount] is 0 and [cooldown] stays at [maxframes]. *)
Theorem reachable_counter_ranges (g : Pixel -> byte) (cfg : Config)
    (s : State) :
  sane cfg -> reachable g cfg s ->
  0 <= thresholdframecount s <= thresholdframes cfg
  /\ 0 <= cooldown s <= maxframes cfg
  /\ 0 <= quietlen s <= maxframes cfg
  /\ (recording s = true ->
      thresholdframecount s = 0 /\ cooldown s = maxframes cfg
      /\ quietlen s < maxframes cfg).
Proof.
  intros S R.
  destruct (reachable_quietlen_invariant S R) as (Q0 & Q1 & _).
  assert (P : 0 <= thresholdframecount s <= thresholdframes cfg
              /\ 0 <= cooldown s <= maxframes cfg
              /\ (recording s = true ->
                  thresholdframecount s = 0 /\ cooldown s = maxframes cfg)).
  { clear Q0 Q1. induction R as [frames L | s s' i R IH B].
    - destruct S as (M & K & _). cbn. repeat split; try lia; discriminate.
    - pose proof (reachable_full_buffer S R) as F.
      destruct (@loop_body_inv g cfg s s' i S F B) as (d & _ & ->).
      destruct (step_at_counters cfg d s i) as (R2 & _ & C2 & T2 & _).
      rewrite R2, C2, T2.
      destruct IH as (T & C & Rc).
      apply counters_rules_at; try assumption; apply S. }
  destruct P as (T & C & Rc).
  split; [exact T|]. split; [exact C|]. split; [exact Q0|].
  intros Rs. destruct (Rc Rs) as (T0 & C0).
  split; [exact T0|]. split; [exact C0|]. apply Q1. exact Rs.
Qed.

Lemma reachable_counter_ranges_witness :
  let s := Sample.after_first_recording in
  sane Sample.small
  /\ reachable Sample.luma Sample.small s
  /\ 0 <= cooldown s <= maxframes Sample.small.
Proof.
  intros s.
  assert (S : sane Sample.small) by (vm_compute; repeat split; discriminate).
  assert (R : reachable Sample.luma Sample.small s).
  { apply (@script_reachable Sample.luma Sample.small [Sample.black]
             [Sample.see Sample.dim; Sample.see Sample.dim]).
    - vm_compute. split; discriminate.
    - vm_compute. reflexivity. }
  split; [exact S|]. split; [exact R|].
  apply (@reachable_counter_ranges Sample.luma Sample.small s S R).
Defined.

(** ** What the script writes: files, terminal and log *)

(** The outputs of an iteration after those of its rules: one more video and
    one more "frames saved" line when the size check fires. *)
Lemma step_at_outputs (cfg : Config) (d : Z) (s : State) (i : Input) :
  1 <= maxsavedframes cfg ->
  let r := rules_at cfg d s (frame i) in
  let full := flush_guard cfg (before_flush cfg d s (frame i)) in
  flush_guard cfg (before_flush cfg d s (frame i))
  = (len (savedframes r) >? maxsavedframes cfg - 1)
  /\ savedframes (step_at cfg d s i) = (if full then [] else savedframes r)
  /\ printed (step_at cfg d s i)
     = printed r ++ (if full then [FramesSaved (len (savedframes r))] else [])
  /\ logged (step_at cfg d s i)
     = (if full
        then log_if_enabled cfg (FramesSaved (len (savedframes r))) (logged r)
        else logged r)
  /\ map video_frames (videos (step_at cfg d s i))
     = map video_frames (videos s) ++ (if full then [savedframes r] else []).
Proof.
  intros MS r full.
  pose proof (proj1 (savedframes_rules_at cfg d s (frame i))) as V.
  fold r in V.
  assert (B : before_flush cfg d s (frame i)
              = set_framebuffer (tl (framebuffer r) ++ [frame i]) r)
    by reflexivity.
  split; [reflexivity|].
  unfold step_at. fold full. destruct full eqn:G.
  - assert (NE : savedframes r <> [])
      by exact (@flush_guard_nonempty cfg (before_flush cfg d s (frame i)) MS G).
    unfold flushed. rewrite B. fields.
    destruct (savedframes r) as [|first rest] eqn:SF; [congruence|].
    fields. rewrite map_app, V, ?SF. repeat split; reflexivity.
  - rewrite B. fields. rewrite !app_nil_r, V. repeat split; reflexivity.
Qed.

Lemma length_savedframes_rules_at (cfg : Config) (d : Z) (s : State)
    (f : Frame) :
  len (savedframes s) <= len (savedframes (rules_at cfg d s f))
  <= len (savedframes s) + len (framebuffer s) + 1.
Proof.
  rewrite (proj2 (savedframes_rules_at cfg d s f)). unfold len.
  destruct (recording s), (start_guard cfg (before_start cfg d s)),
    (quietlen s <? maxframes cfg);
    rewrite ?length_app; cbn [length]; lia.
Qed.

(** X11: at the top of the loop [savedframes] is always shorter than
    [maxsavedframes], and every video the loop has written holds at least
    [maxsavedframes] and at most [maxsavedframes + maxframes] frames: the
    size check runs once per iteration, after an iteration may have added the
    whole frame buffer and the new frame. *)
Theorem reachable_file_sizes (g : Pixel -> byte) (cfg : Config) (s : State) :
  sane cfg -> reachable g cfg s ->
  len (savedframes s) < maxsavedframes cfg
  /\ Forall (fun frames => maxsavedframes cfg <= len frames
                           <= maxsavedframes cfg + maxframes cfg)
            (map video_frames (videos s)).
Proof.
  intros S R. induction R as [frames L | s s' i R IH B].
  - destruct S as (_ & _ & MS). cbn. split; [lia | constructor].
  - pose proof (reachable_full_buffer S R) as F.
    destruct (@loop_body_inv g cfg s s' i S F B) as (d & _ & ->).
    destruct IH as (L0 & V0).
    destruct (@step_at_outputs cfg d s i (proj2 (proj2 S)))
      as (G & SF & _ & _ & V).
    pose proof (length_savedframes_rules_at cfg d s (frame i)) as LR.
    unfold full_buffer in F.
    rewrite SF, V.
    destruct (flush_guard cfg (before_flush cfg d s (frame i))).
    + symmetry in G. apply Z.gtb_lt in G.
      destruct S as (_ & _ & MS). split; [cbn; lia|].
      apply Forall_app. split; [exact V0|].
      constructor; [lia | constructor].
    + symmetry in G. rewrite Z.gtb_ltb in G. apply Z.ltb_ge in G.
      rewrite app_nil_r. split; [lia | exact V0].
Qed.

Lemma reachable_file_sizes_witness :
  let s := Sample.state_of
             (script Sample.luma Sample.tiny [Sample.black]
                [Sample.see Sample.dim]) in
  sane Sample.tiny
  /\ reachable Sample.luma Sample.tiny s
  /\ len (savedframes s) < maxsavedframes Sample.tiny
  /\ map (fun v => len (video_frames v)) (videos s) = [2].
Proof.
  intros s.
  assert (S : sane Sample.tiny) by (vm_compute; repeat split; discriminate).
  assert (R : reachable Sample.luma Sample.tiny s).
  { apply (@script_reachable Sample.luma Sample.tiny [Sample.black]
             [Sample.see Sample.dim]).
    - vm_compute. split; discriminate.
    - vm_compute. reflexivity. }
  split; [exact S|]. split; [exact R|].
  split; [apply (@reachable_file_sizes Sample.luma Sample.tiny s S R)|].
  vm_compute. reflexivity.
Defined.

Lemma lines_rules_at (cfg : Config) (d : Z) (s : State) (f : Frame) :
  count_lines is_started (printed s)
  = count_lines is_stopped (printed s) + (if recording s then 1 else 0) ->
  count_lines is_started (printed (rules_at cfg d s f))
  = count_lines is_stopped (printed (rules_at cfg d s f))
    + (if recording (rules_at cfg d s f) then 1 else 0).
Proof.
  intros H.
  counters; unfold count_lines, len in *;
    rewrite ?filter_app, ?length_app;
    cbn [filter is_started is_stopped length]; lia.
Qed.

Lemma count_lines_snoc_saved (p : event -> bool) (l : list event) (n : Z) :
  p (FramesSaved n) = false -> count_lines p (l ++ [FramesSaved n]) = count_lines p l.
Proof.
  intros P. unfold count_lines, len. rewrite filter_app. cbn [filter].
  rewrite P, app_nil_r. reflexivity.
Qed.

(** X12: the lines "Started recording" and "Stopped recording" alternate,
    beginning with a start: in every state the script reaches there are as
    many starts as stops while idle, and one start more while a recording
    runs. *)
Theorem starts_and_stops_alternate (g : Pixel -> byte) (cfg : Config)
    (s : State) :
  sane cfg -> reachable g cfg s ->
  count_lines is_started (printed s)
  = count_lines is_stopped (printed s) + (if recording s then 1 else 0).
Proof.
  intros S R. induction R as [frames L | s s' i R IH B].
  - reflexivity.
  - pose proof (reachable_full_buffer S R) as F.
    destruct (@loop_body_inv g cfg s s' i S F B) as (d & _ & ->).
    destruct (step_at_counters cfg d s i) as (R2 & _).
    destruct (@step_at_outputs cfg d s i (proj2 (proj2 S)))
      as (_ & _ & P & _).
    rewrite R2, P.
    pose proof (@lines_rules_at cfg d s (frame i) IH) as H.
    destruct (flush_guard cfg (before_flush cfg d s (frame i))).
    + rewrite !count_lines_snoc_saved by reflexivity. exact H.
    + rewrite app_nil_r. exact H.
Qed.

Lemma starts_and_stops_alternate_witness :
  let s := Sample.after_first_recording in
  sane Sample.small
  /\ reachable Sample.luma Sample.small s
  /\ count_lines is_started (printed s) = 1
  /\ count_lines is_stopped (printed s) = 1.
Proof.
  intros s.
  assert (S : sane Sample.small) by (vm_compute; repeat split; discriminate).
  assert (R : reachable Sample.luma Sample.small s).
  { apply (@script_reachable Sample.luma Sample.small [Sample.black]
             [Sample.see Sample.dim; Sample.see Sample.dim]).
    - vm_compute. split; discriminate.
    - vm_compute. reflexivity. }
  pose proof (@starts_and_stops_alternate Sample.luma Sample.small s S R) as A.
  assert (P : count_lines is_stopped (printed s) = 1)
    by (vm_compute; reflexivity).
  assert (Rs : recording s = false) by (vm_compute; reflexivity).
  rewrite P, Rs in A.
  split; [exact S|]. split; [exact R|]. split; [exact A | exact P].
Defined.

Lemma saved_counts_rules_at (cfg : Config) (d : Z) (s : State) (f : Frame) :
  saved_counts (printed (rules_at cfg d s f)) = saved_counts (printed s).
Proof.
  counters; unfold saved_counts; rewrite ?flat_map_app; cbn [flat_map app];
    rewrite ?app_nil_r; reflexivity.
Qed.

(** X13: every "n frames saved." line stands for one video file with exactly
    [n] frames, in the same order: the numbers printed so far are the lengths
    of the videos written so far. *)
Theorem saved_lines_match_videos (g : Pixel -> byte) (cfg : Config)
    (s : State) :
  sane cfg -> reachable g cfg s ->
  saved_counts (printed s)
  = map (fun frames => len frames) (map video_frames (videos s)).
Proof.
  intros S R. induction R as [frames L | s s' i R IH B].
  - reflexivity.
  - pose proof (reachable_full_buffer S R) as F.
    destruct (@loop_body_inv g cfg s s' i S F B) as (d & _ & ->).
    destruct (@step_at_outputs cfg d s i (proj2 (proj2 S)))
      as (_ & _ & P & _ & V).
    rewrite P, V, map_app. unfold saved_counts at 1. rewrite flat_map_app.
    fold (saved_counts (printed (rules_at cfg d s (frame i)))).
    rewrite saved_counts_rules_at, IH. f_equal.
    destruct (flush_guard cfg (before_flush cfg d s (frame i))); reflexivity.
Qed.

Lemma saved_lines_match_videos_witness :
  let s := Sample.state_of
             (script Sample.luma Sample.tiny [Sample.black]
                [Sample.see Sample.dim]) in
  sane Sample.tiny
  /\ reachable Sample.luma Sample.tiny s
  /\ saved_counts (printed s) = [2]
  /\ map (fun frames => len frames) (map video_frames (videos s)) = [2].
Proof.
  intros s.
  assert (S : sane Sample.tiny) by (vm_compute; repeat split; discriminate).
  assert (R : reachable Sample.luma Sample.tiny s).
  { apply (@script_reachable Sample.luma Sample.tiny [Sample.black]
             [Sample.see Sample.dim]).
    - vm_compute. split; discriminate.
    - vm_compute. reflexivity. }
  pose proof (@saved_lines_match_videos Sample.luma Sample.tiny s S R) as E.
  assert (P : saved_counts (printed s) = [2]) by (vm_compute; reflexivity).
  split; [exact S|]. split; [exact R|]. split; [exact P|].
  rewrite <- E. exact P.
Defined.

(** ** The cooldown *)

Lemma cooling_rules_at (cfg : Config) (d : Z) (s : State) (f : Frame) :
  recording s = false -> cooldown s < maxframes cfg ->
  recording (rules_at cfg d s f) = false
  /\ cooldown (rules_at cfg d s f) = cooldown s + 1.
Proof.
  intros R C.
  counters; repeat split; intros; try reflexivity; try lia; try congruence.
Qed.

(** X15: while [cooldown] is below [maxframes] nothing starts, whatever the
    scores: every idle iteration adds one to [cooldown], and a run that
    brings it at most up to [maxframes] ends idle.  After a stop, which
    leaves [cooldown] at 1, the next [maxframes - 1] iterations cannot start
    a recording. *)
Theorem cooldown_blocks_start (g : Pixel -> byte) (cfg : Config) :
  sane cfg ->
  forall (inputs : list Input) (s s' : State),
    full_buffer cfg s -> recording s = false ->
    cooldown s + len inputs <= maxframes cfg ->
    main_loop g cfg s inputs = Ok s' ->
    recording s' = false /\ cooldown s' = cooldown s + len inputs.
Proof.
  intros S. induction inputs as [|i rest IH]; intros s s' F R C Run.
  - cbn in Run. injection Run as <-. unfold len. cbn. split; [exact R | lia].
  - cbn [main_loop] in Run.
    destruct (loop_body g cfg s i) as [s1| |] eqn:L; cbn [bind] in Run;
      try discriminate.
    destruct (@loop_body_inv g cfg s s1 i S F L) as (d & _ & ->).
    unfold len in C. cbn [length] in C.
    destruct (@cooling_rules_at cfg d s (frame i) R) as (R1 & C1); [lia|].
    destruct (step_at_counters cfg d s i) as (R2 & _ & C2 & _).
    destruct (@step_at_buffer cfg d s i (proj1 S) F) as (F1 & _).
    destruct (IH (step_at cfg d s i) s') as (Rn & Cn); try assumption.
    + congruence.
    + unfold len. lia.
    + split; [exact Rn|]. rewrite Cn. unfold len. cbn [length]. lia.
Qed.

Lemma cooldown_blocks_start_witness :
  let s := Sample.state_of
             (script Sample.luma Sample.pair [Sample.black; Sample.black]
                [Sample.see Sample.dim; Sample.see Sample.white;
                 Sample.see Sample.white; Sample.see Sample.white]) in
  let inputs := [Sample.see Sample.black] in
  sane Sample.pair
  /\ full_buffer Sample.pair s
  /\ recording s = false
  /\ cooldown s = 1
  /\ cooldown s + len inputs <= maxframes Sample.pair
  /\ exists s', main_loop Sample.luma Sample.pair s inputs = Ok s'
                /\ recording s' = false.
Proof.
  intros s inputs.
  assert (S : sane Sample.pair) by (vm_compute; repeat split; discriminate).
  assert (F : full_buffer Sample.pair s) by (vm_compute; reflexivity).
  assert (R : recording s = false) by (vm_compute; reflexivity).
  assert (C1 : cooldown s = 1) by (vm_compute; reflexivity).
  assert (C : cooldown s + len inputs <= maxframes Sample.pair)
    by (vm_compute; discriminate).
  set (s' := Sample.state_of (main_loop Sample.luma Sample.pair s inputs)).
  assert (Run : main_loop Sample.luma Sample.pair s inputs = Ok s')
    by (vm_compute; reflexivity).
  split; [exact S|]. split; [exact F|]. split; [exact R|]. split; [exact C1|].
  split; [exact C|].
  exists s'. split; [exact Run|].
  apply (@cooldown_blocks_start Sample.luma Sample.pair S inputs s s' F R C Run).
Defined.

(** ** A still scene *)

Lemma idle_quiet_unchanged (cfg : Config) (d : Z) (s : State) (f : Frame) :
  1 <= thresholdframes cfg -> recording s = false -> d < threshold cfg ->
  recording (rules_at cfg d s f) = false
  /\ thresholdframecount (rules_at cfg d s f) = 0
  /\ savedframes (rules_at cfg d s f) = savedframes s
  /\ videos (rules_at cfg d s f) = videos s
  /\ printed (rules_at cfg d s f) = printed s.
Proof.
  intros K R D.
  counters; repeat split; intros; try reflexivity; try lia; try congruence.
Qed.

(** One quiet iteration while idle with room left in [savedframes]: the
    size check does not fire and the disk is not looked at. *)
Lemma idle_quiet_iteration (g : Pixel -> byte) (cfg : Config) (s : State)
    (i : Input) (d : Z) :
  sane cfg -> full_buffer cfg s -> recording s = false ->
  len (savedframes s) < maxsavedframes cfg ->
  score g cfg s (frame i) = Ok d -> d < threshold cfg ->
  exists s',
    loop_body g cfg s i = Ok s'
    /\ full_buffer cfg s' /\ newest s' = Some (frame i)
    /\ recording s' = false /\ thresholdframecount s' = 0
    /\ savedframes s' = savedframes s /\ videos s' = videos s
    /\ printed s' = printed s.
Proof.
  intros S F R L E D.
  destruct (@idle_quiet_unchanged cfg d s (frame i) (proj1 (proj2 S)) R D)
    as (R1 & T1 & SF1 & V1 & P1).
  assert (G : flush_guard cfg (before_flush cfg d s (frame i)) = false).
  { destruct (flush_guard cfg _) eqn:G; [|reflexivity].
    apply flush_guard_spec in G.
    unfold before_flush, rotated in G. cbn [savedframes set_framebuffer] in G.
    rewrite SF1 in G. lia. }
  exists (step_at cfg d s i).
  split.
  { rewrite (@loop_body_cases g cfg s i d S F E), G. reflexivity. }
  destruct (@step_at_buffer cfg d s i (proj1 S) F) as (F1 & N1).
  split; [exact F1|]. split; [exact N1|].
  unfold step_at. rewrite G. unfold before_flush, rotated. fields.
  repeat split; assumption.
Qed.

(** X16: a still scene records nothing.  From an idle state with room left
    in [savedframes], any number of iterations whose scores are all below
    the threshold run to the end without starting a recording, without
    touching [savedframes], without writing a file or printing a line, and
    whatever the free disk space is; [thresholdframecount] is 0 after each
    of them. *)
Theorem still_scene_records_nothing (g : Pixel -> byte) (cfg : Config) :
  sane cfg ->
  forall (inputs : list Input) (s : State) (b : Frame),
    full_buffer cfg s -> newest s = Some b ->
    recording s = false ->
    len (savedframes s) < maxsavedframes cfg ->
    forallb (quiet cfg) (scores g b (map frame inputs)) = true ->
    exists s',
      main_loop g cfg s inputs = Ok s'
      /\ recording s' = false
      /\ savedframes s' = savedframes s
      /\ videos s' = videos s
      /\ printed s' = printed s
      /\ (inputs <> [] -> thresholdframecount s' = 0).
Proof.
  intros S. induction inputs as [|i rest IH]; intros s b F N R L A.
  - exists s. cbn. repeat split; try assumption. congruence.
  - cbn [map scores forallb] in A.
    apply andb_true_iff in A. destruct A as (A1 & A2).
    unfold quiet in A1.
    destruct (framediff g (frame i) b) as [d| |] eqn:D; try discriminate.
    apply Z.ltb_lt in A1.
    assert (E : score g cfg s (frame i) = Ok d).
    { destruct (@score_newest g cfg s (frame i) (proj1 S) F) as (b' & N' & E).
      rewrite E. congruence. }
    destruct (@idle_quiet_iteration g cfg s i d S F R L E A1)
      as (s1 & L1 & F1 & N1 & R1 & T1 & SF1 & V1 & P1).
    destruct (IH s1 (frame i) F1 N1 R1) as (s' & Run & Rn & SFn & Vn & Pn & Tn);
      [rewrite SF1; exact L | exact A2 |].
    exists s'. cbn [main_loop]. rewrite L1. cbn [bind].
    split; [exact Run|]. split; [exact Rn|].
    split; [congruence|]. split; [congruence|]. split; [congruence|].
    intros _. destruct rest as [|j rest'].
    + cbn in Run. injection Run as <-. exact T1.
    + apply Tn. discriminate.
Qed.

Lemma still_scene_records_nothing_witness :
  let s := init_state Sample.pair [Sample.black; Sample.black] in
  let inputs := [mkInput Sample.black 0; mkInput Sample.black 0;
                 mkInput Sample.black 0] in
  sane Sample.pair
  /\ recording s = false
  /\ forallb (quiet Sample.pair)
       (scores Sample.luma Sample.black (map frame inputs)) = true
  /\ exists s', main_loop Sample.luma Sample.pair s inputs = Ok s'
                /\ recording s' = false
                /\ savedframes s' = [].
Proof.
  intros s inputs.
  assert (S : sane Sample.pair) by (vm_compute; repeat split; discriminate).
  assert (F : full_buffer Sample.pair s) by (vm_compute; reflexivity).
  assert (N : newest s = Some Sample.black) by reflexivity.
  assert (R : recording s = false) by reflexivity.
  assert (L : len (savedframes s) < maxsavedframes Sample.pair)
    by (vm_compute; reflexivity).
  assert (A : forallb (quiet Sample.pair)
                (scores Sample.luma Sample.black (map frame inputs)) = true)
    by (vm_compute; reflexivity).
  destruct (@still_scene_records_nothing Sample.luma Sample.pair S inputs s
              Sample.black F N R L A)
    as (s' & Run & Rn & SFn & _).
  split; [exact S|]. split; [exact R|]. split; [exact A|].
  exists s'. split; [exact Run|]. split; [exact Rn | exact SFn].
Defined.

(** X17: a threshold above 1020 can never be met: with such a threshold the
    script stays idle in every state it reaches, [savedframes] stays empty,
    no file is written and no "Started recording" line is printed. *)
Theorem threshold_above_range_never_records (g : Pixel -> byte)
    (cfg : Config) (s : State) :
  sane cfg -> 1020 < threshold cfg -> reachable g cfg s ->
  recording s = false /\ savedframes s = [] /\ videos s = []
  /\ has_started s = false.
Proof.
  intros S T R. induction R as [frames L | s s' i R IH B].
  - repeat split; reflexivity.
  - pose proof (reachable_full_buffer S R) as F.
    destruct IH as (R0 & SF0 & V0 & P0).
    destruct (@loop_body_inv g cfg s s' i S F B) as (d & E & ->).
    assert (D : d < threshold cfg).
    { destruct (@score_newest g cfg s (frame i) (proj1 S) F) as (b & _ & E').
      rewrite E' in E. pose proof (framediff_range _ _ _ E). lia. }
    assert (L : len (savedframes s) < maxsavedframes cfg).
    { rewrite SF0. destruct S as (_ & _ & MS). cbn. lia. }
    destruct (@idle_quiet_iteration g cfg s i d S F R0 L E D)
      as (s1 & L1 & _ & _ & R1 & _ & SF1 & V1 & P1).
    rewrite B in L1. injection L1 as <-.
    unfold has_started in *. repeat split; congruence.
Qed.

Lemma threshold_above_range_never_records_witness :
  let cfg := mkConfig 1 1021 1 1000 1 true true in
  let s := Sample.state_of
             (script Sample.luma cfg [Sample.black] [Sample.see Sample.white]) in
  sane cfg /\ 1020 < threshold cfg
  /\ reachable Sample.luma cfg s
  /\ recording s = false.
Proof.
  intros cfg s.
  assert (S : sane cfg) by (vm_compute; repeat split; discriminate).
  assert (T : 1020 < threshold cfg) by reflexivity.
  assert (R : reachable Sample.luma cfg s).
  { apply (@script_reachable Sample.luma cfg [Sample.black]
             [Sample.see Sample.white]).
    - vm_compute. split; discriminate.
    - vm_compute. reflexivity. }
  split; [exact S|]. split; [exact T|]. split; [exact R|].
  apply (@threshold_above_range_never_records Sample.luma cfg s S T R).
Defined.

(** ** Frames of one shape *)

Lemma newest_in_buffer (s : State) (b : Frame) :
  newest s = Some b -> In b (framebuffer s).
Proof.
  unfold newest. apply nth_error_In.
Qed.

(** X18: with a camera that delivers frames of one non-empty shape, and
    enough free disk space, the loop raises nothing and does not exit: any
    number of iterations runs to the end, and the frame buffer keeps holding
    frames of that shape. *)
Theorem loop_runs_on_uniform_frames (g : Pixel -> byte) (cfg : Config)
    (h w : nat) :
  sane cfg -> (0 < h)%nat -> (0 < w)%nat ->
  forall (inputs : list Input) (s : State),
    full_buffer cfg s ->
    Forall (has_shape h w) (framebuffer s) ->
    Forall (has_shape h w) (map frame inputs) ->
    forallb (enough_space cfg) inputs = true ->
    exists s',
      main_loop g cfg s inputs = Ok s'
      /\ full_buffer cfg s'
      /\ Forall (has_shape h w) (framebuffer s').
Proof.
  intros S Hh Hw. induction inputs as [|i rest IH]; intros s F B I SP.
  - exists s. cbn. repeat split; assumption.
  - cbn [map] in I. inversion I as [|f fs If Irest]; subst.
    cbn [forallb] in SP. apply andb_true_iff in SP. destruct SP as (SP1 & SP2).
    destruct (@score_newest g cfg s (frame i) (proj1 S) F) as (b & N & E).
    pose proof (newest_in_buffer s N) as Inb.
    pose proof (proj1 (Forall_forall _ _) B b Inb) as (Hb & Wb).
    destruct If as (Hi & Wi).
    assert (D : exists d, framediff g (frame i) b = Ok d).
    { eexists. apply framediff_value; lia. }
    destruct D as (d & D).
    destruct (@scored_iteration g cfg s b i d S F N D SP1) as (_ & L & F1 & _).
    assert (B1 : Forall (has_shape h w) (framebuffer (step_at cfg d s i))).
    { rewrite framebuffer_step_at. apply Forall_app. split.
      - destruct (framebuffer s) as [|x fb]; [constructor|].
        inversion B; assumption.
      - constructor; [split; assumption | constructor]. }
    destruct (IH (step_at cfg d s i) F1 B1 Irest SP2) as (s' & Run & Fn & Bn).
    exists s'. cbn [main_loop]. rewrite L. cbn [bind].
    repeat split; assumption.
Qed.

Lemma loop_runs_on_uniform_frames_witness :
  let s := init_state Sample.small [Sample.black] in
  let inputs := [Sample.see Sample.dim; Sample.see Sample.white] in
  sane Sample.small
  /\ Forall (has_shape 2 2) (framebuffer s)
  /\ Forall (has_shape 2 2) (map frame inputs)
  /\ exists s', main_loop Sample.luma Sample.small s inputs = Ok s'.
Proof.
  intros s inputs.
  assert (S : sane Sample.small) by (vm_compute; repeat split; discriminate).
  assert (F : full_buffer Sample.small s) by (vm_compute; reflexivity).
  assert (B : Forall (has_shape 2 2) (framebuffer s))
    by (repeat constructor).
  assert (I : Forall (has_shape 2 2) (map frame inputs))
    by (repeat constructor).
  assert (SP : forallb (enough_space Sample.small) inputs = true)
    by (vm_compute; reflexivity).
  destruct (@loop_runs_on_uniform_frames Sample.luma Sample.small 2 2 S
              (Nat.lt_0_succ 1) (Nat.lt_0_succ 1) inputs s F B I SP)
    as (s' & Run & _).
  split; [exact S|]. split; [exact B|]. split; [exact I|].
  exists s'. exact Run.
Defined.

(** ** Continued motion *)

Lemma recording_loud_rules (cfg : Config) (d : Z) (s : State) (f : Frame) :
  1 <= maxframes cfg -> recording s = true -> threshold cfg <= d ->
  0 <= quietlen s < maxframes cfg ->
  recording (rules_at cfg d s f) = true
  /\ quietlen (rules_at cfg d s f) = 0
  /\ savedframes (rules_at cfg d s f) = savedframes s ++ [f].
Proof.
  intros M R D Q.
  counters; repeat split; intros; try reflexivity; try lia; try congruence.
Qed.

(** X19: motion keeps a recording running.  From a recording state, any
    number of iterations whose scores are all at or above the threshold
    leave the recording running with [quietlen] at 0, and every frame read is
    recorded, in order, also across the files the size check writes on the
    way. *)
Theorem motion_keeps_recording (g : Pixel -> byte) (cfg : Config) :
  sane cfg ->
  forall (inputs : list Input) (s : State) (b : Frame),
    full_buffer cfg s -> newest s = Some b ->
    recording s = true -> 0 <= quietlen s < maxframes cfg ->
    forallb (loud cfg) (scores g b (map frame inputs)) = true ->
    forallb (enough_space cfg) inputs = true ->
    exists s',
      main_loop g cfg s inputs = Ok s'
      /\ recording s' = true
      /\ (inputs <> [] -> quietlen s' = 0)
      /\ recorded s' = recorded s ++ map frame inputs.
Proof.
  intros S. induction inputs as [|i rest IH]; intros s b F N R Q A SP.
  - exists s. cbn. rewrite app_nil_r. repeat split; try assumption. congruence.
  - cbn [map scores forallb] in A, SP.
    apply andb_true_iff in A. destruct A as (A1 & A2).
    apply andb_true_iff in SP. destruct SP as (SP1 & SP2).
    unfold loud in A1.
    destruct (framediff g (frame i) b) as [d| |] eqn:D; try discriminate.
    apply Z.geb_le in A1.
    destruct (@scored_iteration g cfg s b i d S F N D SP1) as (_ & L & F1 & N1).
    destruct (@recording_loud_rules cfg d s (frame i) (proj1 S) R A1 Q)
      as (R1 & Q1 & SF1).
    destruct (step_at_counters cfg d s i) as (R2 & Q2 & _).
    assert (Rec : recorded (step_at cfg d s i) = recorded s ++ [frame i]).
    { rewrite recorded_step_at, SF1. unfold recorded.
      rewrite app_assoc. reflexivity. }
    destruct (IH (step_at cfg d s i) (frame i) F1 N1)
      as (s' & Run & Rn & Qn & Recn); try assumption; try congruence.
    { rewrite Q2, Q1. destruct S. lia. }
    exists s'. cbn [main_loop]. rewrite L. cbn [bind].
    split; [exact Run|]. split; [exact Rn|]. split.
    + intros _. destruct rest as [|j rest'].
      * cbn in Run. injection Run as <-. congruence.
      * apply Qn. discriminate.
    + rewrite Recn, Rec, <- app_assoc. reflexivity.
Qed.

Lemma motion_keeps_recording_witness :
  let s := mkState true [Sample.black] 0 [Sample.black] 1 0
             [StartedRecording] [StartedRecording] [] in
  let inputs := [Sample.see Sample.dim; Sample.see Sample.white] in
  sane Sample.tiny
  /\ recording s = true
  /\ forallb (loud Sample.tiny)
       (scores Sample.luma Sample.black (map frame inputs)) = true
  /\ exists s', main_loop Sample.luma Sample.tiny s inputs = Ok s'
                /\ recording s' = true
                /\ recorded s' = [Sample.black; Sample.dim; Sample.white].
Proof.
  intros s inputs.
  assert (S : sane Sample.tiny) by (vm_compute; repeat split; discriminate).
  assert (F : full_buffer Sample.tiny s) by (vm_compute; reflexivity).
  assert (N : newest s = Some Sample.black) by reflexivity.
  assert (R : recording s = true) by reflexivity.
  assert (Q : 0 <= quietlen s < maxframes Sample.tiny)
    by (vm_compute; split; [discriminate | reflexivity]).
  assert (A : forallb (loud Sample.tiny)
                (scores Sample.luma Sample.black (map frame inputs)) = true)
    by (vm_compute; reflexivity).
  assert (SP : forallb (enough_space Sample.tiny) inputs = true)
    by (vm_compute; reflexivity).
  destruct (@motion_keeps_recording Sample.luma Sample.tiny S inputs s
              Sample.black F N R Q A SP)
    as (s' & Run & Rn & _ & Rec).
  split; [exact S|]. split; [exact R|]. split; [exact A|].
  exists s'. split; [exact Run|]. split; [exact Rn | exact Rec].
Defined.
